(** * API-change detection and endpoint extraction of the code-reader MCP server

    A shallow embedding of the two pure helpers of [src/index.ts],
    [detectApiChanges] and [extractApiEndpoints], together with the part of
    the JavaScript runtime they rest on: strings as sequences of UTF-16 code
    units, [String.prototype.split], [trim], [replace], [toUpperCase], and the
    regular-expression engine ([new RegExp], [RegExp.prototype.test],
    [String.prototype.matchAll]) in the backtracking, continuation-passing
    formulation of the ECMAScript specification. *)

From Stdlib Require Import List NArith PeanoNat Bool Ascii String Lia Sorted.
Import ListNotations.

(** ** JavaScript strings *)

Module JsString.

(** A string is a sequence of 16-bit code units. *)
Definition t := list N.

Definition ofString (s : string) : t :=
  List.map N_of_ascii (list_ascii_of_string s).

(** The double quote, written by code so that it can be spliced into
    literals. *)
Definition dq : t := [34%N].

(** [WhiteSpace] and [LineTerminator] code units: what [trim] strips and what
    the class escape [\s] denotes. *)
Definition isWhiteSpace (c : N) : bool :=
  ((9 <=? c) && (c <=? 13) || (c =? 32) || (c =? 160) || (c =? 5760)
   || ((8192 <=? c) && (c <=? 8202)) || (c =? 8232) || (c =? 8233)
   || (c =? 8239) || (c =? 8287) || (c =? 12288) || (c =? 65279))%N.

Definition isLineTerminator (c : N) : bool :=
  ((c =? 10) || (c =? 13) || (c =? 8232) || (c =? 8233))%N.

Definition isDigit (c : N) : bool := ((48 <=? c) && (c <=? 57))%N.
Definition isLower (c : N) : bool := ((97 <=? c) && (c <=? 122))%N.
Definition isUpper (c : N) : bool := ((65 <=? c) && (c <=? 90))%N.
Definition isWordChar (c : N) : bool :=
  isLower c || isUpper c || isDigit c || (c =? 95)%N.

Fixpoint dropWhile (p : N -> bool) (s : t) : t :=
  match s with
  | [] => []
  | c :: tl => if p c then dropWhile p tl else s
  end.

(** [String.prototype.trim]. *)
Definition trim (s : t) : t :=
  rev (dropWhile isWhiteSpace (rev (dropWhile isWhiteSpace s))).

(** [s.split("\n")]: never empty; the empty string splits into one empty
    line. *)
Fixpoint splitLines (s : t) : list t :=
  match s with
  | [] => [[]]
  | c :: tl =>
      if (c =? 10)%N then [] :: splitLines tl
      else match splitLines tl with
           | h :: rest => (c :: h) :: rest
           | [] => [[c]]
           end
  end.

(** [pattern.replace(/\*/g, ".*")]: every [*] becomes the two code units
    [.*]; every other code unit is kept. *)
Definition replaceStar (s : t) : t :=
  flat_map (fun c => if (c =? 42)%N then [46%N; 42%N] else [c]) s.

(** [String.prototype.toUpperCase] on ASCII.  The program applies it to the
    verb that a signature captures, and the signatures capture ASCII
    letters, digits and underscores only; code units outside ASCII are left
    as they are. *)
Definition upperChar (c : N) : N := if isLower c then (c - 32)%N else c.
Definition lowerChar (c : N) : N := if isUpper c then (c + 32)%N else c.
Definition toUpperCase (s : t) : t := List.map upperChar s.

(** [s.substring(i, j)] for [i <= j]. *)
Definition substring (i j : nat) (s : t) : t := firstn (j - i) (skipn i s).

End JsString.

Definition jsstring : Type := JsString.t.
Definition js : string -> jsstring := JsString.ofString.

(** ** Completions

    How an evaluation ends: it returns a value, or it throws the
    [SyntaxError] of the RegExp constructor (nothing in these functions
    catches it), or it leaves the fragment of the regular-expression
    grammar that is modelled, in which case the model says nothing. *)

Inductive Completion (A : Type) :=
| Return (a : A)
| SyntaxError
| Unsupported.
Arguments Return {A} a.
Arguments SyntaxError {A}.
Arguments Unsupported {A}.

(** Sequencing: the first abrupt completion is the result. *)
Definition bind {A B : Type} (x : Completion A) (k : A -> Completion B)
  : Completion B :=
  match x with
  | Return a => k a
  | SyntaxError => SyntaxError
  | Unsupported => Unsupported
  end.

Notation "' p <- x ;; k" := (bind x (fun p => k))
  (at level 61, p pattern, x at next level, right associativity).

(** ** Regular expressions *)

Module RegExp.

(** *** Abstract syntax

    The fragment of the pattern grammar (Annex B, no [u] flag) that the
    signature literals of the source and glob-like path patterns use:
    characters, [.], character classes, the class escapes, [^] and [$],
    capturing and non-capturing groups, alternation and the quantifiers
    [*], [+], [?] with their lazy forms. *)

Inductive ClassEscape := Digit | NotDigit | Space | NotSpace | Word | NotWord.

Inductive ClassItem :=
| CChar (c : N)
| CRange (lo hi : N)
| CEsc (e : ClassEscape).

Inductive Regex :=
| Empty
| Char (c : N)
| Dot
| Class (invert : bool) (items : list ClassItem)
| Bol
| Eol
| Seq (a b : Regex)
| Alt (a b : Regex)
| Quant (min : nat) (max : option nat) (greedy : bool) (r : Regex)
| Group (i : nat) (r : Regex).

(** *** Parsing: [new RegExp(source)]

    [Return r]: the constructor returns the pattern [r]; [SyntaxError]: it
    throws; [Unsupported]: the source uses a construct outside the fragment
    above (braces, look-around, back-references, named groups, [\b],
    numeric, hexadecimal, Unicode and control escapes). *)

Definition isQuantifierStart (c : N) : bool :=
  ((c =? 42) || (c =? 43) || (c =? 63))%N.

(** The character after a backslash, outside a class. *)
Definition atomEscape (c : N) : Completion Regex :=
  if (c =? 100)%N then Return (Class false [CEsc Digit])
  else if (c =? 68)%N then Return (Class false [CEsc NotDigit])
  else if (c =? 115)%N then Return (Class false [CEsc Space])
  else if (c =? 83)%N then Return (Class false [CEsc NotSpace])
  else if (c =? 119)%N then Return (Class false [CEsc Word])
  else if (c =? 87)%N then Return (Class false [CEsc NotWord])
  else if (c =? 116)%N then Return (Char 9)
  else if (c =? 110)%N then Return (Char 10)
  else if (c =? 118)%N then Return (Char 11)
  else if (c =? 102)%N then Return (Char 12)
  else if (c =? 114)%N then Return (Char 13)
  else if JsString.isDigit c || (c =? 98)%N || (c =? 66)%N || (c =? 99)%N
          || (c =? 107)%N || (c =? 120)%N || (c =? 117)%N
       then Unsupported
  else Return (Char c).

(** The character after a backslash, inside a class. *)
Definition classEscape (c : N) : Completion ClassItem :=
  if (c =? 100)%N then Return (CEsc Digit)
  else if (c =? 68)%N then Return (CEsc NotDigit)
  else if (c =? 115)%N then Return (CEsc Space)
  else if (c =? 83)%N then Return (CEsc NotSpace)
  else if (c =? 119)%N then Return (CEsc Word)
  else if (c =? 87)%N then Return (CEsc NotWord)
  else if (c =? 116)%N then Return (CChar 9)
  else if (c =? 110)%N then Return (CChar 10)
  else if (c =? 118)%N then Return (CChar 11)
  else if (c =? 102)%N then Return (CChar 12)
  else if (c =? 114)%N then Return (CChar 13)
  else if (c =? 98)%N then Return (CChar 8)
  else if JsString.isDigit c || (c =? 66)%N || (c =? 99)%N
          || (c =? 107)%N || (c =? 120)%N || (c =? 117)%N
       then Unsupported
  else Return (CChar c).

(** One [ClassAtom]: the item and the rest of the input. *)
Definition classAtom (s : jsstring) : Completion (ClassItem * jsstring) :=
  match s with
  | [] => SyntaxError
  | c :: tl =>
      if (c =? 92)%N then
        match tl with
        | [] => SyntaxError
        | e :: tl' => ' it <- classEscape e ;; Return (it, tl')
        end
      else Return (CChar c, tl)
  end.

(** Whether the input continues a [ClassAtom] into a range: a dash that is
    not the last character of the class. *)
Definition rangeAhead (s : jsstring) : option jsstring :=
  match s with
  | d :: s2 =>
      match s2 with
      | e :: _ => if ((d =? 45) && negb (e =? 93))%N then Some s2 else None
      | [] => None
      end
  | [] => None
  end.

(** [ClassRanges] up to and including the closing bracket.  A range whose
    end points are out of order is a syntax error; so is a class that is not
    closed. *)
Fixpoint classRanges (fuel : nat) (s : jsstring)
  : Completion (list ClassItem * jsstring) :=
  match fuel with
  | O => Unsupported
  | S fuel' =>
      match s with
      | [] => SyntaxError
      | c :: tl =>
          if (c =? 93)%N then Return ([], tl)
          else
            ' (a, s1) <- classAtom s ;;
            match rangeAhead s1 with
            | Some s2 =>
                ' (b, s3) <- classAtom s2 ;;
                match a, b with
                | CChar lo, CChar hi =>
                    if (hi <? lo)%N then SyntaxError
                    else
                      ' (items, s4) <- classRanges fuel' s3 ;;
                      Return (CRange lo hi :: items, s4)
                | _, _ => Unsupported
                end
            | None =>
                ' (items, s4) <- classRanges fuel' s1 ;;
                Return (a :: items, s4)
            end
      end
  end.

(** A character class, the input standing just after the opening bracket. *)
Definition characterClass (s : jsstring) : Completion (Regex * jsstring) :=
  let '(invert, s') :=
    match s with
    | c :: tl => if (c =? 94)%N then (true, tl) else (false, s)
    | [] => (false, s)
    end in
  ' (items, rest) <- classRanges (S (List.length s')) s' ;;
  Return (Class invert items, rest).

(** An optional quantifier after an atom; a question mark after it makes it
    lazy. *)
Definition quantifier (atom : Regex) (s : jsstring)
  : Completion (Regex * jsstring) :=
  let lazy (min : nat) (max : option nat) (tl : jsstring) :=
    match tl with
    | q :: tl' =>
        if (q =? 63)%N then Return (Quant min max false atom, tl')
        else Return (Quant min max true atom, tl)
    | [] => Return (Quant min max true atom, tl)
    end in
  match s with
  | c :: tl =>
      if (c =? 42)%N then lazy 0 None tl
      else if (c =? 43)%N then lazy 1 None tl
      else if (c =? 63)%N then lazy 0 (Some 1) tl
      else if (c =? 123)%N then Unsupported
      else Return (atom, s)
  | [] => Return (atom, s)
  end.

Fixpoint mkAlt (first : Regex) (others : list Regex) : Regex :=
  match others with
  | [] => first
  | r :: rs => Alt first (mkAlt r rs)
  end.

(** A [Disjunction], returned as its first alternative and the list of the
    others, with the rest of the input (empty, or starting at a closing
    parenthesis) and the number of capturing groups opened so far.  A
    quantifier with nothing before it to repeat, a group that is not closed
    and a backslash that ends the pattern are syntax errors. *)
Fixpoint disjunction (fuel : nat) (s : jsstring) (g : nat)
  : Completion (Regex * list Regex * jsstring * nat) :=
  match fuel with
  | O => Unsupported
  | S fuel' =>
      let afterAtom (atom : Regex) (s1 : jsstring) (g' : nat) :=
        ' (term, s2) <- quantifier atom s1 ;;
        ' (a, alts, s3, g'') <- disjunction fuel' s2 g' ;;
        Return (Seq term a, alts, s3, g'') in
      let afterAssertion (r : Regex) (s1 : jsstring) :=
        ' (a, alts, s3, g'') <- disjunction fuel' s1 g ;;
        Return (Seq r a, alts, s3, g'') in
      let group (capture : bool) (s1 : jsstring) :=
        let g1 := if capture then S g else g in
        ' (a, alts, s2, g2) <- disjunction fuel' s1 g1 ;;
        match s2 with
        | c :: s3 =>
            if (c =? 41)%N then
              let body := mkAlt a alts in
              afterAtom (if capture then Group g1 body else body) s3 g2
            else SyntaxError
        | [] => SyntaxError
        end in
      match s with
      | [] => Return (Empty, [], s, g)
      | c :: tl =>
          if (c =? 41)%N then Return (Empty, [], s, g)
          else if (c =? 124)%N then
            ' (a, alts, s3, g'') <- disjunction fuel' tl g ;;
            Return (Empty, a :: alts, s3, g'')
          else if isQuantifierStart c then SyntaxError
          else if (c =? 123)%N then Unsupported
          else if (c =? 94)%N then afterAssertion Bol tl
          else if (c =? 36)%N then afterAssertion Eol tl
          else if (c =? 46)%N then afterAtom Dot tl g
          else if (c =? 91)%N then
            ' (cls, s1) <- characterClass tl ;; afterAtom cls s1 g
          else if (c =? 92)%N then
            match tl with
            | [] => SyntaxError
            | e :: tl' => ' r <- atomEscape e ;; afterAtom r tl' g
            end
          else if (c =? 40)%N then
            match tl with
            | q :: tl' =>
                if (q =? 63)%N then
                  match tl' with
                  | k :: tl'' =>
                      if (k =? 58)%N then group false tl'' else Unsupported
                  | [] => SyntaxError
                  end
                else group true tl
            | [] => SyntaxError
            end
          else afterAtom (Char c) tl g
      end
  end.

(** [new RegExp(source)]: the whole source must be one disjunction; a
    closing parenthesis left over is unmatched. *)
Definition parse (source : jsstring) : Completion Regex :=
  ' (a, alts, rest, _) <- disjunction (S (List.length source)) source 0 ;;
  match rest with
  | [] => Return (mkAlt a alts)
  | _ :: _ => SyntaxError
  end.

(** *** Matching

    The matcher follows the ECMAScript semantics: a matcher takes a state
    (the position reached and the captures so far) and a continuation, and
    backtracks by trying its alternatives in the order of the
    specification.  The state carries the input still ahead, so that
    reading a character is one step. *)

Record MatchState := mkState {
  endIndex : nat;
  ahead : jsstring;
  captures : list (nat * (nat * nat))
}.

Definition MatchResult := option MatchState.
Definition Continuation := MatchState -> MatchResult.
Definition Matcher := MatchState -> Continuation -> MatchResult.

Definition setCapture (i : nat) (range : nat * nat) (x : MatchState)
  : MatchState :=
  mkState (endIndex x) (ahead x)
    ((i, range) :: filter (fun e => negb (fst e =? i)) (captures x)).

Definition clearCaptures (parens : list nat) (x : MatchState) : MatchState :=
  mkState (endIndex x) (ahead x)
    (filter (fun e => negb (existsb (Nat.eqb (fst e)) parens)) (captures x)).

Fixpoint getCapture (i : nat) (caps : list (nat * (nat * nat)))
  : option (nat * nat) :=
  match caps with
  | [] => None
  | (j, range) :: tl => if j =? i then Some range else getCapture i tl
  end.

(** The capturing groups inside a term, which a quantifier resets at each
    iteration. *)
Fixpoint groupsOf (r : Regex) : list nat :=
  match r with
  | Seq a b | Alt a b => groupsOf a ++ groupsOf b
  | Quant _ _ _ a => groupsOf a
  | Group i a => i :: groupsOf a
  | _ => []
  end.

Definition escapeHas (e : ClassEscape) (ch : N) : bool :=
  match e with
  | Digit => JsString.isDigit ch
  | NotDigit => negb (JsString.isDigit ch)
  | Space => JsString.isWhiteSpace ch
  | NotSpace => negb (JsString.isWhiteSpace ch)
  | Word => JsString.isWordChar ch
  | NotWord => negb (JsString.isWordChar ch)
  end.

Definition itemHas (ch : N) (it : ClassItem) : bool :=
  match it with
  | CChar a => (ch =? a)%N
  | CRange lo hi => ((lo <=? ch) && (ch <=? hi))%N
  | CEsc e => escapeHas e ch
  end.

(** Membership in a character set.  With the [i] flag a character belongs
    when some member has the same canonical form; [Canonicalize] is
    modelled on ASCII, where it maps a letter to its upper case.  (A code
    unit outside ASCII never canonicalizes into ASCII, and only the
    signature literals, whose characters are all ASCII, carry the flag.) *)
Definition setHas (ignoreCase : bool) (items : list ClassItem) (ch : N)
  : bool :=
  existsb (itemHas ch) items
  || (ignoreCase
      && (existsb (itemHas (JsString.upperChar ch)) items
          || existsb (itemHas (JsString.lowerChar ch)) items)).

(** [CharacterSetMatcher]: fails at the end of the input, otherwise reads
    one character and tests it. *)
Definition characterSetMatcher (p : N -> bool) : Matcher :=
  fun x c =>
    match ahead x with
    | [] => None
    | ch :: tl =>
        if p ch then c (mkState (S (endIndex x)) tl (captures x)) else None
    end.

(** [RepeatMatcher].  An iteration of a quantifier whose minimum is
    exhausted must move forward, so the number of iterations is at most the
    minimum plus the length of the input ahead: [compile] starts the fuel
    one above that, and the case of no fuel is not reached. *)
Fixpoint repeatMatcher (fuel : nat) (m : Matcher) (min : nat)
    (max : option nat) (greedy : bool) (parens : list nat)
    (x : MatchState) (c : Continuation) {struct fuel} : MatchResult :=
  match fuel with
  | O => None
  | S fuel' =>
      match max with
      | Some O => c x
      | _ =>
          let d : Continuation := fun y =>
            if (min =? 0) && (endIndex y =? endIndex x) then None
            else repeatMatcher fuel' m (Nat.pred min)
                   (option_map Nat.pred max) greedy parens y c in
          let xr := clearCaptures parens x in
          if negb (min =? 0) then m xr d
          else if greedy then
            match m xr d with
            | Some z => Some z
            | None => c x
            end
          else
            match c x with
            | Some z => Some z
            | None => m xr d
            end
      end
  end.

(** [CompileSubpattern], forward direction; [ignoreCase] is the [i] flag. *)
Fixpoint compile (ignoreCase : bool) (r : Regex) : Matcher :=
  match r with
  | Empty => fun x c => c x
  | Char a =>
      characterSetMatcher (fun ch =>
        if ignoreCase
        then (JsString.upperChar ch =? JsString.upperChar a)%N
        else (ch =? a)%N)
  | Dot => characterSetMatcher (fun ch => negb (JsString.isLineTerminator ch))
  | Class invert items =>
      characterSetMatcher (fun ch => xorb invert (setHas ignoreCase items ch))
  | Bol => fun x c => if endIndex x =? 0 then c x else None
  | Eol => fun x c => match ahead x with [] => c x | _ :: _ => None end
  | Seq a b =>
      fun x c => compile ignoreCase a x (fun y => compile ignoreCase b y c)
  | Alt a b =>
      fun x c =>
        match compile ignoreCase a x c with
        | Some z => Some z
        | None => compile ignoreCase b x c
        end
  | Quant min max greedy a =>
      fun x c =>
        repeatMatcher (S (min + List.length (ahead x)))
          (compile ignoreCase a) min max greedy (groupsOf a) x c
  | Group i a =>
      fun x c =>
        compile ignoreCase a x
          (fun y => c (setCapture i (endIndex x, endIndex y) y))
  end.

(** *** RegExp objects

    An object keeps its source text, the pattern compiled from it, its
    flags and the mutable [lastIndex]. *)

Record RegExpObject := mkRegExp {
  source : jsstring;
  pattern : Regex;
  global : bool;
  ignoreCase : bool;
  lastIndex : nat
}.

Definition setLastIndex (R : RegExpObject) (i : nat) : RegExpObject :=
  mkRegExp (source R) (pattern R) (global R) (ignoreCase R) i.

(** The array that [exec] returns: where the match starts and ends, and the
    captures, as positions in the input. *)
Record ExecResult := mkExec {
  index : nat;
  matchEnd : nat;
  groups : list (nat * (nat * nat));
  input : jsstring
}.

(** [match[i]]: the matched text for 0, the text of group [i] otherwise,
    [None] (undefined) for a group that did not take part. *)
Definition groupText (m : ExecResult) (i : nat) : option jsstring :=
  match i with
  | O => Some (JsString.substring (index m) (matchEnd m) (input m))
  | S _ =>
      match getCapture i (groups m) with
      | Some (a, b) => Some (JsString.substring a b (input m))
      | None => None
      end
  end.

(** The search loop of [RegExpBuiltinExec]: try the matcher at [i], then at
    each later position. *)
Fixpoint searchFrom (m : Matcher) (i : nat) (s : jsstring)
  : option (nat * MatchState) :=
  match m (mkState i s []) (fun y => Some y) with
  | Some y => Some (i, y)
  | None =>
      match s with
      | [] => None
      | _ :: tl => searchFrom m (S i) tl
      end
  end.

(** [RegExpBuiltinExec(R, S)]: the result and the object afterwards.  Only
    a global object reads and writes its [lastIndex]. *)
Definition regExpBuiltinExec (R : RegExpObject) (S : jsstring)
  : option ExecResult * RegExpObject :=
  let start := if global R then lastIndex R else 0 in
  let failed := if global R then setLastIndex R 0 else R in
  if List.length S <? start then (None, failed)
  else
    match searchFrom (compile (ignoreCase R) (pattern R)) start
            (skipn start S) with
    | None => (None, failed)
    | Some (i, y) =>
        (Some (mkExec i (endIndex y) (captures y) S),
         if global R then setLastIndex R (endIndex y) else R)
    end.

(** [new RegExp(source)], without flags. *)
Definition regExpCreate (src : jsstring) : Completion RegExpObject :=
  ' r <- parse src ;; Return (mkRegExp src r false false 0).

(** [R.test(S)]. *)
Definition test (R : RegExpObject) (S : jsstring) : bool :=
  match fst (regExpBuiltinExec R S) with
  | Some _ => true
  | None => false
  end.

(** The iteration of [%RegExpStringIterator%] for a global matcher: after
    an empty match [lastIndex] is advanced by one. *)
Fixpoint matchAllFrom (fuel : nat) (matcher : RegExpObject) (S : jsstring)
  : list ExecResult :=
  match fuel with
  | O => []
  | S fuel' =>
      match regExpBuiltinExec matcher S with
      | (None, _) => []
      | (Some m, matcher') =>
          let next :=
            if matchEnd m =? index m
            then setLastIndex matcher' (Datatypes.S (lastIndex matcher'))
            else matcher' in
          m :: matchAllFrom fuel' next S
      end
  end.

(** [[...S.matchAll(R)]] for a global [R]: the iteration runs on a copy of
    [R] that starts at [R]'s [lastIndex]; [R] itself is not written.  Each
    step moves [lastIndex] forward, so the length of [S] plus two steps
    exhaust the input. *)
Definition matchAll (R : RegExpObject) (S : jsstring) : list ExecResult :=
  matchAllFrom (2 + List.length S)
    (mkRegExp (source R) (pattern R) (global R) (ignoreCase R) (lastIndex R))
    S.

End RegExp.


(** ** The program *)

Import RegExp.

(** A regular-expression literal of the source, given by its text between
    the slashes and its [g] and [i] flags; evaluating it makes a new object
    whose [lastIndex] is 0.  (Every literal below parses: see
    [literals_parse].) *)
Definition literal (src : jsstring) (g i : bool) : RegExpObject :=
  mkRegExp src (match parse src with Return r => r | _ => Empty end) g i 0.

Definition dq : jsstring := JsString.dq.

(** *** detectApiChanges *)

Record ChangedFile := mkFile {
  filename : jsstring;
  status : jsstring;
  patch : option jsstring
}.

Record ChangeRecord := mkRecord {
  recFilename : jsstring;
  recStatus : jsstring;
  changes : list jsstring;
  isApiFile : bool
}.

(** The callback of [apiPatterns.some]:
    [new RegExp(pattern.replace(/\*/g, ".*")).test(file.filename)]. *)
Definition matchesPattern (pattern name : jsstring) : Completion bool :=
  ' regex <- regExpCreate (JsString.replaceStar pattern) ;;
  Return (test regex name).

(** [apiPatterns.some(...)]: patterns are tried in order, up to the first
    that matches. *)
Fixpoint somePattern (apiPatterns : list jsstring) (name : jsstring)
  : Completion bool :=
  match apiPatterns with
  | [] => Return false
  | pattern :: tl =>
      ' b <- matchesPattern pattern name ;;
      if b then Return true else somePattern tl name
  end.

(** [files.filter(...)]. *)
Fixpoint filterFiles (apiPatterns : list jsstring) (files : list ChangedFile)
  : Completion (list ChangedFile) :=
  match files with
  | [] => Return []
  | file :: tl =>
      ' keep <- somePattern apiPatterns (filename file) ;;
      ' rest <- filterFiles apiPatterns tl ;;
      Return (if keep then file :: rest else rest)
  end.

(** The [routePatterns] array of the loop body, in its order. *)
Definition routePatterns : list RegExpObject :=
  [ literal (js "(@(Get|Post|Put|Delete|Patch|RequestMapping))") false true;
    literal (js "app\.(get|post|put|delete|patch)\s*\(") false true;
    literal (js "router\.(get|post|put|delete|patch)\s*\(") false true;
    literal (js "@(api_view|action)\s*\(") false true;
    literal (js "def\s+(get|post|put|delete|patch)\s*\(") false true;
    literal (js "func\s+\(.*\)\s+(Get|Post|Put|Delete|Patch)") false true;
    literal (js "\[Http(Get|Post|Put|Delete|Patch)\]") false true ].

(** [for (const pattern of routePatterns)] with its [break]: the trimmed
    line is pushed at the first pattern that tests true. *)
Fixpoint pushFirstMatch (patterns : list RegExpObject) (line : jsstring)
    (changes : list jsstring) : list jsstring :=
  match patterns with
  | [] => changes
  | pattern :: tl =>
      if test pattern line then changes ++ [JsString.trim line]
      else pushFirstMatch tl line changes
  end.

(** [for (const line of lines)]. *)
Fixpoint scanLines (lines : list jsstring) (changes : list jsstring)
  : list jsstring :=
  match lines with
  | [] => changes
  | line :: tl => scanLines tl (pushFirstMatch routePatterns line changes)
  end.

(** [if (file.patch)]: an absent patch and the empty string are both
    falsy. *)
Definition truthy (p : option jsstring) : option jsstring :=
  match p with
  | Some ((_ :: _) as text) => Some text
  | _ => None
  end.

(** The callback of [.map]. *)
Definition toRecord (file : ChangedFile) : ChangeRecord :=
  let changes :=
    match truthy (patch file) with
    | Some text => scanLines (JsString.splitLines text) []
    | None => []
    end in
  mkRecord (filename file) (status file) changes true.

Definition detectApiChanges (files : list ChangedFile)
    (apiPatterns : list jsstring) : Completion (list ChangeRecord) :=
  ' kept <- filterFiles apiPatterns files ;;
  Return (List.map toRecord kept).

(** *** extractApiEndpoints *)

Record Signature := mkSignature {
  regex : RegExpObject;
  methodIndex : nat;
  pathIndex : option nat
}.

(** [path] is [None] when the source yields [undefined]. *)
Record Endpoint := mkEndpoint {
  method : jsstring;
  path : option jsstring;
  handler : jsstring;
  lineNumber : nat
}.

Definition quotes : jsstring := js "['" ++ dq ++ js "`]".
Definition notQuotes : jsstring := js "[^'" ++ dq ++ js "`]".

(** The [patterns] array, in its order: Express.js, Spring Boot, FastAPI,
    Django REST Framework, Go Gin. *)
Definition patterns : list Signature :=
  [ mkSignature
      (literal (js "(app|router)\.(get|post|put|delete|patch)\s*\(\s*"
                ++ quotes ++ js "(" ++ notQuotes ++ js "+)" ++ quotes)
         true true) 2 (Some 3);
    mkSignature
      (literal (js "@(GetMapping|PostMapping|PutMapping|DeleteMapping|PatchMapping)\s*\(\s*(?:value\s*=\s*)?"
                ++ quotes ++ js "?([^'" ++ dq ++ js "`\)]+)" ++ quotes
                ++ js "?")
         true true) 1 (Some 2);
    mkSignature
      (literal (js "@app\.(get|post|put|delete|patch)\s*\(\s*"
                ++ quotes ++ js "(" ++ notQuotes ++ js "+)" ++ quotes)
         true true) 1 (Some 2);
    mkSignature
      (literal (js "@action\s*\(\s*.*methods\s*=\s*\[\s*"
                ++ quotes ++ js "(\w+)" ++ quotes)
         true true) 1 None;
    mkSignature
      (literal (js "(GET|POST|PUT|DELETE|PATCH)\s*\(\s*"
                ++ quotes ++ js "(" ++ notQuotes ++ js "+)" ++ quotes)
         true true) 1 (Some 2) ].

Definition UNKNOWN : jsstring := js "UNKNOWN".

(** The object pushed for one match. *)
Definition endpointOf (pattern : Signature) (line : jsstring) (index : nat)
    (m : ExecResult) : Endpoint :=
  mkEndpoint
    (match groupText m (methodIndex pattern) with
     | Some verb =>
         match JsString.toUpperCase verb with
         | [] => UNKNOWN
         | (_ :: _) as upper => upper
         end
     | None => UNKNOWN
     end)
    (match pathIndex pattern with
     | Some ((S _) as i) => groupText m i
     | _ => Some []
     end)
    (JsString.trim line)
    (index + 1).

(** [for (const match of matches)]. *)
Fixpoint pushMatches (pattern : Signature) (line : jsstring) (index : nat)
    (matches : list ExecResult) (endpoints : list Endpoint) : list Endpoint :=
  match matches with
  | [] => endpoints
  | m :: tl =>
      pushMatches pattern line index tl
        (endpoints ++ [endpointOf pattern line index m])
  end.

(** [for (const pattern of patterns)]. *)
Fixpoint scanSignatures (sigs : list Signature) (line : jsstring)
    (index : nat) (endpoints : list Endpoint) : list Endpoint :=
  match sigs with
  | [] => endpoints
  | pattern :: tl =>
      scanSignatures tl line index
        (pushMatches pattern line index (matchAll (regex pattern) line)
           endpoints)
  end.

(** [lines.forEach((line, index) => ...)]. *)
Fixpoint forEachLine (lines : list jsstring) (index : nat)
    (endpoints : list Endpoint) : list Endpoint :=
  match lines with
  | [] => endpoints
  | line :: tl =>
      forEachLine tl (S index) (scanSignatures patterns line index endpoints)
  end.

(** [filename] is accepted and not used. *)
Definition extractApiEndpoints (content filename : jsstring)
  : list Endpoint :=
  forEachLine (JsString.splitLines content) 0 [].


(** *** Service configurations, resources and branch comparison *)

Module Service.

Record ServiceConfig := mkService {
  name : jsstring;
  repoOwner : jsstring;
  repoName : jsstring;
  automationRepoPath : jsstring;
  apiPatterns : list jsstring
}.

(** [a === b] on strings. *)
Definition sameString (a b : jsstring) : bool :=
  if list_eq_dec N.eq_dec a b then true else false.

Fixpoint startsWith (needle s : jsstring) : bool :=
  match needle, s with
  | [], _ => true
  | n :: needle', c :: s' => (c =? n)%N && startsWith needle' s'
  | _ :: _, [] => false
  end.

(** [s.replace(needle, replacement)] for a string [needle] and a
    replacement without dollar signs: the first occurrence is replaced. *)
Fixpoint replaceFirst (needle replacement s : jsstring) : jsstring :=
  if startsWith needle s
  then replacement ++ skipn (List.length needle) s
  else match s with
       | [] => []
       | c :: tl => c :: replaceFirst needle replacement tl
       end.

Definition scheme : jsstring := js "automation://".

Section Lookup.

(** [String.prototype.toLowerCase], the case mapping of the runtime, and the
    [SERVICES] array read from the environment when the server starts. *)
Variable toLowerCase : jsstring -> jsstring.
Variable SERVICES : list ServiceConfig.

(** [SERVICES.find((s) => s.name.toLowerCase() ===
    serviceName.toLowerCase())]. *)
Definition getServiceConfig (serviceName : jsstring) : option ServiceConfig :=
  find (fun s => sameString (toLowerCase (name s)) (toLowerCase serviceName))
    SERVICES.

(** The [uri] of the resource listed for a service. *)
Definition resourceUri (service : ServiceConfig) : jsstring :=
  scheme ++ name service.

(** The handler of [ListResourcesRequestSchema], by the [uri] of each
    resource. *)
Definition listResources : list jsstring := List.map resourceUri SERVICES.

(** The handler of [ReadResourceRequestSchema]: the service name looked up
    and the service found, whose fields the text of the answer prints. *)
Definition readResource (uri : jsstring) : jsstring * option ServiceConfig :=
  let serviceName := replaceFirst scheme [] uri in
  (serviceName, getServiceConfig serviceName).

End Lookup.

(** A commit of a comparison, and its line in the answer of
    [compare_branches]: [sha.substring(0, 7)] and
    [message.split("\n")[0]]. *)
Record Commit := mkCommit {
  sha : jsstring;
  message : jsstring
}.

Definition shortSha (c : Commit) : jsstring := JsString.substring 0 7 (sha c).

Definition firstLine (c : Commit) : jsstring :=
  match JsString.splitLines (message c) with
  | line :: _ => line
  | [] => []
  end.

End Service.

(** The filter of [compare_branches], written out a second time in the
    source: [comparison.files?.filter((f) => service.apiPatterns.some(...))];
    [files] may be undefined. *)
Fixpoint someApiPattern (apiPatterns : list jsstring) (name : jsstring)
  : Completion bool :=
  match apiPatterns with
  | [] => Return false
  | pattern :: tl =>
      ' regex <- regExpCreate (JsString.replaceStar pattern) ;;
      if test regex name then Return true else someApiPattern tl name
  end.

Fixpoint filterApiFiles (apiPatterns : list jsstring)
    (files : list ChangedFile) : Completion (list ChangedFile) :=
  match files with
  | [] => Return []
  | f :: tl =>
      ' keep <- someApiPattern apiPatterns (filename f) ;;
      ' rest <- filterApiFiles apiPatterns tl ;;
      Return (if keep then f :: rest else rest)
  end.

Definition compareBranchesApiFiles (files : option (list ChangedFile))
    (apiPatterns : list jsstring) : Completion (option (list ChangedFile)) :=
  match files with
  | None => Return None
  | Some fs =>
      ' kept <- filterApiFiles apiPatterns fs ;; Return (Some kept)
  end.

(** [x?.length || 0]. *)
Definition lengthOrZero {A : Type} (x : option (list A)) : nat :=
  match x with
  | Some l => List.length l
  | None => 0
  end.

(** [comparison.files || []], the argument of [detectApiChanges] in
    [get_api_changes]. *)
Definition filesOrEmpty (files : option (list ChangedFile))
  : list ChangedFile :=
  match files with
  | Some fs => fs
  | None => []
  end.

(** *** extractApiEndpoints on the heap

    The same function with its objects made explicit.  A RegExp object
    lives in a store and is known by its location; [exec] writes
    [lastIndex] into the store; evaluating a literal and copying a matcher
    allocate.  A call runs in the store that earlier calls have left. *)

Module Heap.

Definition Store := list RegExpObject.
Definition Loc := nat.

Definition deref (st : Store) (l : Loc) : RegExpObject :=
  nth l st (mkRegExp [] Empty false false 0).

Fixpoint assign (st : Store) (l : Loc) (R : RegExpObject) : Store :=
  match st, l with
  | [], _ => []
  | _ :: tl, O => R :: tl
  | x :: tl, S l' => x :: assign tl l' R
  end.

Definition alloc (R : RegExpObject) (st : Store) : Loc * Store :=
  (List.length st, st ++ [R]).

(** [RegExpBuiltinExec] on the object at [l]. *)
Definition execAt (l : Loc) (S : jsstring) (st : Store)
  : option ExecResult * Store :=
  let '(r, R') := regExpBuiltinExec (deref st l) S in
  (r, assign st l R').

(** The iteration of [%RegExpStringIterator%] on the matcher at
    [matcher]. *)
Fixpoint matchAllAt (fuel : nat) (matcher : Loc) (S : jsstring) (st : Store)
  : list ExecResult * Store :=
  match fuel with
  | O => ([], st)
  | Datatypes.S fuel' =>
      match execAt matcher S st with
      | (None, st1) => ([], st1)
      | (Some m, st1) =>
          let st2 :=
            if matchEnd m =? index m
            then assign st1 matcher
                   (setLastIndex (deref st1 matcher)
                      (Datatypes.S (lastIndex (deref st1 matcher))))
            else st1 in
          let '(rest, st3) := matchAllAt fuel' matcher S st2 in
          (m :: rest, st3)
      end
  end.

(** [[...S.matchAll(R)]]: a new matcher object is made from [R], its
    [lastIndex] set to that of [R], and the iteration runs on it. *)
Definition matchAllOn (R : Loc) (S : jsstring) (st : Store)
  : list ExecResult * Store :=
  let orig := deref st R in
  let '(matcher, st1) :=
    alloc (mkRegExp (source orig) (pattern orig) (global orig)
             (ignoreCase orig) (lastIndex orig)) st in
  matchAllAt (2 + List.length S) matcher S st1.

(** An element of the [patterns] array: the location of its [regex] and its
    two indices. *)
Record SignatureRef := mkRef {
  regexAt : Loc;
  methodIndexOf : nat;
  pathIndexOf : option nat
}.

Definition resolve (st : Store) (ref : SignatureRef) : Signature :=
  mkSignature (deref st (regexAt ref)) (methodIndexOf ref) (pathIndexOf ref).

(** Evaluating the array literal: each regular-expression literal makes a
    new object. *)
Fixpoint allocSignatures (sigs : list Signature) (st : Store)
  : list SignatureRef * Store :=
  match sigs with
  | [] => ([], st)
  | sig :: tl =>
      let '(l, st1) := alloc (regex sig) st in
      let '(refs, st2) := allocSignatures tl st1 in
      (mkRef l (methodIndex sig) (pathIndex sig) :: refs, st2)
  end.

(** [for (const pattern of patterns)]. *)
Fixpoint scanSignaturesAt (refs : list SignatureRef) (line : jsstring)
    (index : nat) (endpoints : list Endpoint) (st : Store)
  : list Endpoint * Store :=
  match refs with
  | [] => (endpoints, st)
  | ref :: tl =>
      let '(matches, st1) := matchAllOn (regexAt ref) line st in
      scanSignaturesAt tl line index
        (pushMatches (resolve st ref) line index matches endpoints) st1
  end.

(** [lines.forEach((line, index) => ...)]. *)
Fixpoint forEachLineAt (refs : list SignatureRef) (lines : list jsstring)
    (index : nat) (endpoints : list Endpoint) (st : Store)
  : list Endpoint * Store :=
  match lines with
  | [] => (endpoints, st)
  | line :: tl =>
      let '(endpoints', st1) :=
        scanSignaturesAt refs line index endpoints st in
      forEachLineAt refs tl (S index) endpoints' st1
  end.

Definition extractApiEndpoints (content filename : jsstring) (st : Store)
  : list Endpoint * Store :=
  let '(refs, st1) := allocSignatures patterns st in
  forEachLineAt refs (JsString.splitLines content) 0 [] st1.

(** A reference to an object of the store. *)
Definition validRef (st : Store) (ref : SignatureRef) : Prop :=
  regexAt ref < List.length st.

End Heap.

(** ** Notions used in the statements *)

(** *** The engine *)

(** [y] lies further on than [x] in the same input. *)
Definition extends (x y : MatchState) : Prop :=
  endIndex y + List.length (ahead y) = endIndex x + List.length (ahead x)
  /\ endIndex x <= endIndex y.

(** A matcher that consults its continuation only on states further on in
    the input. *)
Definition local (m : Matcher) : Prop :=
  forall x c c', (forall y, extends x y -> c y = c' y) -> m x c = m x c'.

(** A matcher that succeeds only through its continuation. *)
Definition through (m : Matcher) : Prop :=
  forall x c z, m x c = Some z -> exists y, extends x y /\ c y = Some z.

(** *** The path matcher *)

(** A pattern whose translation the parser of this model accepts: it is
    well formed and stays inside the modelled fragment of the grammar.  (A
    pattern outside the fragment, with braces for instance, may be valid for
    the RegExp constructor and is not [validPattern].) *)
Definition validPattern (pattern : jsstring) : Prop :=
  exists R, regExpCreate (JsString.replaceStar pattern) = Return R.

(** The verdict of the matcher where it returns one. *)
Definition matchesOr (pattern name : jsstring) : bool :=
  match matchesPattern pattern name with
  | Return b => b
  | _ => false
  end.

(** *** The diff classifier *)

(** What one patch line adds to [changes]. *)
Definition lineEntries (line : jsstring) : list jsstring :=
  pushFirstMatch routePatterns line [].

(** Whether some route pattern tests true on the line. *)
Definition matchesSignature (line : jsstring) : bool :=
  existsb (fun R => test R line) routePatterns.

(** *** The extractor *)

(** What one line, at one index, adds to [endpoints]. *)
Definition lineEndpoints (line : jsstring) (index : nat) : list Endpoint :=
  scanSignatures patterns line index [].

(** The endpoints of the lines from [index] on. *)
Fixpoint endpointsFrom (lines : list jsstring) (index : nat)
  : list Endpoint :=
  match lines with
  | [] => []
  | line :: tl => lineEndpoints line index ++ endpointsFrom tl (S index)
  end.

(** A line on which no signature finds a match. *)
Definition noSignature (line : jsstring) : bool :=
  forallb (fun sig => match matchAll (regex sig) line with
                      | [] => true
                      | _ :: _ => false
                      end) patterns.

(** The twelfth line of [content] is [line], and no signature finds a
    match on any other line. *)
Definition twelfthLineOnly (content line : jsstring) : Prop :=
  exists pre post,
    JsString.splitLines content = pre ++ line :: post
    /\ List.length pre = 11
    /\ Forall (fun l => noSignature l = true) (pre ++ post).

(** ** Sample inputs *)

Definition nl : jsstring := [10%N].

(** The added line of a Spring controller, as it stands in a patch. *)
Definition addedAnnotation : jsstring :=
  js "+    @PostMapping(" ++ dq ++ js "/campaigns" ++ dq ++ js ")".

Definition controllerPattern : jsstring := js "**/*Controller*".

(** A patch without an added line: a hunk header, a context line and a
    removed line, each with a route declaration in it. *)
Definition hunkHeader : jsstring := js "@@ -10,7 +10,6 @@ def get(request):".
Definition contextLine : jsstring := js " app.get('/health', health);".
Definition removedLine : jsstring :=
  js "-    @GetMapping(" ++ dq ++ js "/old" ++ dq ++ js ")".

Definition removalPatch : jsstring :=
  hunkHeader ++ nl ++ contextLine ++ nl ++ removedLine.

Definition removalFile : ChangedFile :=
  mkFile (js "src/api/users.py") (js "modified") (Some removalPatch).

Definition removalRecord : ChangeRecord :=
  mkRecord (js "src/api/users.py") (js "modified")
    [ hunkHeader; js "app.get('/health', health);"; removedLine ] true.

(** Two route calls on one line, matching two route patterns. *)
Definition twoCalls : jsstring :=
  js "  app.get('/a', listA); router.get('/b', listB);".

(** The file name of a SvelteKit endpoint, used as a pattern: its
    translation starts with a quantifier that has nothing to repeat. *)
Definition serverPattern : jsstring := js "+server.ts".

Definition serverFile : ChangedFile :=
  mkFile (js "src/routes/api/+server.ts") (js "added") None.

(** Scenario A: a route declaration on the twelfth line of a file, and the
    descriptor expected for it. *)
Definition scenarioLine : jsstring := js "router.get('/users/:id', getUser);".

Definition scenarioEndpoint : Endpoint :=
  mkEndpoint (js "GET") (Some (js "/users/:id")) scenarioLine 12.

Definition scenarioContent : jsstring :=
  List.concat (repeat (js "// user routes" ++ nl) 11)
  ++ scenarioLine ++ nl ++ js "module.exports = router;".

(** ** Notions used in the further properties *)

(** The verdict of [apiPatterns.some] on a file, where it returns one. *)
Definition keeps (apiPatterns : list jsstring) (file : ChangedFile) : bool :=
  match somePattern apiPatterns (filename file) with
  | Return b => b
  | _ => false
  end.

(** A string that neither starts nor ends with white space. *)
Definition trimmed (s : jsstring) : Prop :=
  (forall c tl, s = c :: tl -> JsString.isWhiteSpace c = false)
  /\ (forall init c, s = init ++ [c] -> JsString.isWhiteSpace c = false).

(** The number of lines of an optional patch. *)
Definition patchLines (p : option jsstring) : nat :=
  match p with
  | Some text => List.length (JsString.splitLines text)
  | None => 0
  end.

(** A descriptor moved down by [k] lines. *)
Definition shiftLines (k : nat) (e : Endpoint) : Endpoint :=
  mkEndpoint (method e) (path e) (handler e) (lineNumber e + k).

(** *** Glob patterns

    The patterns the configuration is written in: characters without a
    meaning in a regular expression, the dot and the star. *)

(** A character that the RegExp constructor reads as itself. *)
Definition plainChar (c : N) : bool :=
  negb ((c =? 94) || (c =? 36) || (c =? 92) || (c =? 46) || (c =? 42)
        || (c =? 43) || (c =? 63) || (c =? 40) || (c =? 41) || (c =? 91)
        || (c =? 124) || (c =? 123))%N.

Definition globChar (c : N) : bool :=
  (plainChar c || (c =? 46) || (c =? 42))%N.

Definition globPattern (pattern : jsstring) : Prop :=
  forallb globChar pattern = true.

Inductive GlobItem :=
| GLit (c : N)
| GAny
| GStar.

Definition globItem (c : N) : GlobItem :=
  if (c =? 42)%N then GStar else if (c =? 46)%N then GAny else GLit c.

Definition globItems (pattern : jsstring) : list GlobItem :=
  List.map globItem pattern.

(** The regular expression that the translation of a glob pattern parses
    to. *)
Fixpoint globRegex (items : list GlobItem) : Regex :=
  match items with
  | [] => Empty
  | GLit c :: r => Seq (Char c) (globRegex r)
  | GAny :: r => Seq Dot (globRegex r)
  | GStar :: r => Seq (Quant 0 None true Dot) (globRegex r)
  end.

(** A text spells a glob pattern: a plain character stands for itself, the
    dot for one character that is not a line terminator, the star for any
    run of such characters. *)
Inductive Spells : list GlobItem -> jsstring -> Prop :=
| SpellsEnd : Spells [] []
| SpellsLit c r s : Spells r s -> Spells (GLit c :: r) (c :: s)
| SpellsAny ch r s :
    JsString.isLineTerminator ch = false ->
    Spells r s -> Spells (GAny :: r) (ch :: s)
| SpellsStar run r s :
    Forall (fun ch => JsString.isLineTerminator ch = false) run ->
    Spells r s -> Spells (GStar :: r) (run ++ s).

(** Some part of the path spells the pattern. *)
Definition spelledIn (items : list GlobItem) (path : jsstring) : Prop :=
  exists pre mid post, path = pre ++ mid ++ post /\ Spells items mid.

(** The same, decided: whether a prefix of [s] spells the pattern, and
    whether a part of [s] does. *)
Fixpoint starHere (k : jsstring -> bool) (s : jsstring) : bool :=
  k s
  || match s with
     | ch :: tl => negb (JsString.isLineTerminator ch) && starHere k tl
     | [] => false
     end.

Fixpoint matchHere (items : list GlobItem) (s : jsstring) : bool :=
  match items with
  | [] => true
  | GLit c :: r =>
      match s with
      | ch :: tl => (ch =? c)%N && matchHere r tl
      | [] => false
      end
  | GAny :: r =>
      match s with
      | ch :: tl => negb (JsString.isLineTerminator ch) && matchHere r tl
      | [] => false
      end
  | GStar :: r => starHere (matchHere r) s
  end.

Fixpoint globSearch (items : list GlobItem) (s : jsstring) : bool :=
  matchHere items s
  || match s with
     | _ :: tl => globSearch items tl
     | [] => false
     end.

(** The first character of what follows an atom is not a quantifier. *)
Definition headOk (s : jsstring) : bool :=
  match s with
  | [] => true
  | c :: _ => negb (isQuantifierStart c || (c =? 123)%N)
  end.

(** Whether a match result is a success. *)
Definition succeeds {A : Type} (r : option A) : bool :=
  match r with
  | Some _ => true
  | None => false
  end.

(** The case mapping on ASCII, to run the lookups on sample names. *)
Definition asciiLower (s : jsstring) : jsstring :=
  List.map JsString.lowerChar s.

Definition campaignService : Service.ServiceConfig :=
  Service.mkService (js "bliklan-campaign-management") (js "gdncomm")
    (js "bliklan-campaign-management") (js "/automation/campaign")
    [js "**/controllers/**"; js "**/*Controller*"].

Definition creditService : Service.ServiceConfig :=
  Service.mkService (js "Bliklan-Credit") (js "gdncomm")
    (js "bliklan-credit") (js "/automation/credit") [js "**/api/**"].

(** Two files of one comparison: the first is kept by [**/api/**], the
    second is not. *)
Definition apiFile : ChangedFile :=
  mkFile (js "src/api/x.js") (js "modified") None.

Definition libFile : ChangedFile :=
  mkFile (js "lib/y.js") (js "modified") None.

Definition controllerFile (status text : jsstring) : ChangedFile :=
  mkFile (js "src/main/java/CampaignController.java") status (Some text).

(** The method of a descriptor, from the text of the verb group. *)
Definition methodOf (verb : option jsstring) : jsstring :=
  match verb with
  | Some ((_ :: _) as text) => JsString.toUpperCase text
  | _ => js "UNKNOWN"
  end.

(** ** Properties *)

(** *** The literals of the source are well formed *)

Lemma literals_parse :
  Forall (fun R => parse (source R) = Return (pattern R))
    (routePatterns ++ List.map regex patterns).
Proof.
  repeat constructor; vm_compute; reflexivity.
Qed.

(** *** The fuel of the engine is enough

    A matcher built by [compile] calls its continuation only on states
    that lie further on in the same input, and succeeds only through its
    continuation.  Hence the iteration of a quantifier and the iteration of
    [matchAll] stop before their fuel does: more fuel changes nothing. *)

Lemma extends_refl (x : MatchState) : extends x x.
Proof. split; reflexivity. Qed.

Lemma extends_trans (x y z : MatchState) :
  extends x y -> extends y z -> extends x z.
Proof. unfold extends. intros [? ?] [? ?]. split; lia. Qed.

Section Repeat.

Variables (m : Matcher) (greedy : bool) (parens : list nat).
Hypothesis m_local : local m.
Hypothesis m_through : through m.

Lemma repeatMatcher_local (fuel : nat) :
  forall min max, local (repeatMatcher fuel m min max greedy parens).
Proof.
  induction fuel as [|fuel IH]; intros min max x c c' Hc;
    cbn [repeatMatcher]; [reflexivity|].
  assert (Hd : m (clearCaptures parens x)
                 (fun y =>
                    if (min =? 0) && (endIndex y =? endIndex x) then None
                    else repeatMatcher fuel m (Nat.pred min)
                           (option_map Nat.pred max) greedy parens y c)
               = m (clearCaptures parens x)
                 (fun y =>
                    if (min =? 0) && (endIndex y =? endIndex x) then None
                    else repeatMatcher fuel m (Nat.pred min)
                           (option_map Nat.pred max) greedy parens y c')).
  { apply m_local. intros y Hy.
    destruct ((min =? 0) && (endIndex y =? endIndex x)); [reflexivity|].
    apply IH. intros z Hz. apply Hc.
    apply extends_trans with y; [exact Hy | exact Hz]. }
  rewrite (Hc x (extends_refl x)).
  destruct max as [[|k]|]; [reflexivity | |]; now rewrite Hd.
Qed.

Lemma repeatMatcher_through (fuel : nat) :
  forall min max, through (repeatMatcher fuel m min max greedy parens).
Proof.
  induction fuel as [|fuel IH]; intros min max x c z H;
    cbn [repeatMatcher] in H; [discriminate|].
  assert (Hstay : c x = Some z -> exists y, extends x y /\ c y = Some z)
    by (intros E; exists x; split; [apply extends_refl | exact E]).
  assert (Hgo : m (clearCaptures parens x)
                  (fun y =>
                     if (min =? 0) && (endIndex y =? endIndex x) then None
                     else repeatMatcher fuel m (Nat.pred min)
                            (option_map Nat.pred max) greedy parens y c)
                = Some z ->
                exists y, extends x y /\ c y = Some z).
  { intros E. apply m_through in E as (y & Hy & E).
    destruct ((min =? 0) && (endIndex y =? endIndex x)); [discriminate|].
    apply IH in E as (y' & Hy' & E). exists y'. split; [|exact E].
    apply extends_trans with y; [exact Hy | exact Hy']. }
  destruct max as [[|k]|]; [now apply Hstay | |];
    (destruct (negb (min =? 0)); [now apply Hgo|];
     destruct greedy;
     [ destruct (m (clearCaptures parens x) _) eqn:E;
       [injection H as ->; now apply Hgo | now apply Hstay]
     | destruct (c x) eqn:E;
       [injection H as ->; now apply Hstay | now apply Hgo] ]).
Qed.

Lemma repeatMatcher_fuel (fuel1 : nat) :
  forall fuel2 min max x c,
    min + List.length (ahead x) < fuel1 ->
    min + List.length (ahead x) < fuel2 ->
    repeatMatcher fuel1 m min max greedy parens x c
    = repeatMatcher fuel2 m min max greedy parens x c.
Proof.
  induction fuel1 as [|fuel1 IH]; intros [|fuel2] min max x c H1 H2;
    try lia.
  cbn [repeatMatcher].
  assert (Hd : m (clearCaptures parens x)
                 (fun y =>
                    if (min =? 0) && (endIndex y =? endIndex x) then None
                    else repeatMatcher fuel1 m (Nat.pred min)
                           (option_map Nat.pred max) greedy parens y c)
               = m (clearCaptures parens x)
                 (fun y =>
                    if (min =? 0) && (endIndex y =? endIndex x) then None
                    else repeatMatcher fuel2 m (Nat.pred min)
                           (option_map Nat.pred max) greedy parens y c)).
  { apply m_local. intros y [Hy1 Hy2]. cbn [clearCaptures endIndex ahead] in *.
    destruct (min =? 0) eqn:Emin; cbn [andb].
    - apply Nat.eqb_eq in Emin. subst min.
      destruct (endIndex y =? endIndex x) eqn:Eend; [reflexivity|].
      apply Nat.eqb_neq in Eend. apply IH; cbn [Nat.pred]; lia.
    - apply Nat.eqb_neq in Emin. apply IH; lia. }
  destruct max as [[|k]|]; [reflexivity | |]; now rewrite Hd.
Qed.

End Repeat.

Lemma characterSetMatcher_local (p : N -> bool) :
  local (characterSetMatcher p).
Proof.
  intros x c c' Hc. unfold characterSetMatcher.
  destruct (ahead x) as [|ch tl] eqn:E; [reflexivity|].
  destruct (p ch); [|reflexivity].
  apply Hc. unfold extends. cbn [endIndex ahead]. rewrite E.
  cbn [List.length]. lia.
Qed.

Lemma characterSetMatcher_through (p : N -> bool) :
  through (characterSetMatcher p).
Proof.
  intros x c z H. unfold characterSetMatcher in H.
  destruct (ahead x) as [|ch tl] eqn:E; [discriminate|].
  destruct (p ch); [|discriminate].
  eexists. split; [|exact H].
  unfold extends. cbn [endIndex ahead]. rewrite E.
  cbn [List.length]. lia.
Qed.

Lemma compile_local (ic : bool) (r : Regex) : local (compile ic r).
Proof.
  induction r as [ | a | | inv items | | | a IHa b IHb | a IHa b IHb
                 | min max greedy a IHa | i a IHa ];
    cbn [compile]; try apply characterSetMatcher_local.
  - intros x c c' Hc. apply Hc, extends_refl.
  - intros x c c' Hc. destruct (endIndex x =? 0); [|reflexivity].
    apply Hc, extends_refl.
  - intros x c c' Hc. destruct (ahead x); [|reflexivity].
    apply Hc, extends_refl.
  - intros x c c' Hc. apply IHa. intros y Hy. apply IHb. intros z Hz.
    apply Hc. now apply extends_trans with y.
  - intros x c c' Hc. now rewrite (IHa x c c' Hc), (IHb x c c' Hc).
  - intros x c c' Hc. now apply repeatMatcher_local.
  - intros x c c' Hc. apply IHa. intros y Hy. apply Hc. exact Hy.
Qed.

Lemma compile_through (ic : bool) (r : Regex) : through (compile ic r).
Proof.
  induction r as [ | a | | inv items | | | a IHa b IHb | a IHa b IHb
                 | min max greedy a IHa | i a IHa ];
    cbn [compile]; try apply characterSetMatcher_through.
  - intros x c z H. exists x. split; [apply extends_refl | exact H].
  - intros x c z H. destruct (endIndex x =? 0); [|discriminate].
    exists x. split; [apply extends_refl | exact H].
  - intros x c z H. destruct (ahead x); [|discriminate].
    exists x. split; [apply extends_refl | exact H].
  - intros x c z H. apply IHa in H as (y & Hy & H).
    apply IHb in H as (y' & Hy' & H). exists y'. split; [|exact H].
    now apply extends_trans with y.
  - intros x c z H. destruct (compile ic a x c) eqn:E.
    + injection H as ->. now apply IHa.
    + now apply IHb.
  - intros x c z H.
    now apply (repeatMatcher_through (compile ic a) greedy (groupsOf a) IHa)
      in H.
  - intros x c z H. apply IHa in H as (y & Hy & H).
    eexists. split; [|exact H]. exact Hy.
Qed.

(** The fuel that [compile] gives to a quantifier is enough: any larger
    amount gives the same result. *)
Lemma quantifier_fuel (ic : bool) (min : nat) (max : option nat)
    (greedy : bool) (a : Regex) (x : MatchState) (c : Continuation)
    (fuel : nat) :
  min + List.length (ahead x) < fuel ->
  repeatMatcher fuel (compile ic a) min max greedy (groupsOf a) x c
  = compile ic (Quant min max greedy a) x c.
Proof.
  intros H. cbn [compile].
  apply repeatMatcher_fuel; [apply compile_local | exact H | lia].
Qed.

Lemma searchFrom_bounds (m : Matcher) (s : jsstring) :
  through m ->
  forall i j y,
    searchFrom m i s = Some (j, y) ->
    i <= j /\ j <= endIndex y /\ endIndex y <= i + List.length s.
Proof.
  intros Hm. induction s as [|ch tl IH]; intros i j y H; cbn [searchFrom] in H.
  - destruct (m (mkState i [] []) (fun y => Some y)) as [z|] eqn:E;
      [|discriminate].
    injection H as <- <-. apply Hm in E as (y' & [H1 H2] & E).
    injection E as ->. cbn [endIndex ahead List.length] in *. lia.
  - destruct (m (mkState i (ch :: tl) []) (fun y => Some y)) as [z|] eqn:E.
    + injection H as <- <-. apply Hm in E as (y' & [H1 H2] & E).
      injection E as ->. cbn [endIndex ahead List.length] in *. lia.
    + apply IH in H. cbn [List.length]. lia.
Qed.

(** A successful [exec] on a global object finds its match at or after
    [lastIndex] and leaves [lastIndex] at the end of the match. *)
Lemma regExpBuiltinExec_global (R R' : RegExpObject) (S : jsstring)
    (m : ExecResult) :
  global R = true ->
  regExpBuiltinExec R S = (Some m, R') ->
  lastIndex R <= index m /\ index m <= matchEnd m
  /\ matchEnd m <= List.length S
  /\ R' = setLastIndex R (matchEnd m).
Proof.
  intros Hg H. unfold regExpBuiltinExec in H. rewrite Hg in H.
  destruct (List.length S <? lastIndex R) eqn:El; [discriminate|].
  apply Nat.ltb_ge in El.
  destruct (searchFrom _ _ _) as [[i y]|] eqn:Es; [|discriminate].
  injection H as <- <-. cbn [index matchEnd].
  apply searchFrom_bounds in Es; [|apply compile_through].
  rewrite length_skipn in Es. repeat split; lia.
Qed.

(** The fuel that [matchAll] gives to its iteration is enough. *)
Lemma matchAllFrom_fuel (S : jsstring) (fuel1 : nat) :
  forall fuel2 R,
    global R = true ->
    Datatypes.S (List.length S) - lastIndex R < fuel1 ->
    Datatypes.S (List.length S) - lastIndex R < fuel2 ->
    matchAllFrom fuel1 R S = matchAllFrom fuel2 R S.
Proof.
  induction fuel1 as [|fuel1 IH]; intros [|fuel2] R Hg H1 H2; try lia.
  cbn [matchAllFrom].
  destruct (regExpBuiltinExec R S) as [[m|] R'] eqn:E; [|reflexivity].
  apply regExpBuiltinExec_global in E as (Ha & Hb & Hc & ->); [|exact Hg].
  f_equal. apply IH.
  - now destruct (matchEnd m =? index m).
  - destruct (matchEnd m =? index m) eqn:Ee; cbn [setLastIndex lastIndex].
    + apply Nat.eqb_eq in Ee. lia.
    + apply Nat.eqb_neq in Ee. lia.
  - destruct (matchEnd m =? index m) eqn:Ee; cbn [setLastIndex lastIndex].
    + apply Nat.eqb_eq in Ee. lia.
    + apply Nat.eqb_neq in Ee. lia.
Qed.

Lemma matchAll_fuel (R : RegExpObject) (S : jsstring) (fuel : nat) :
  global R = true ->
  Datatypes.S (List.length S) - lastIndex R < fuel ->
  matchAllFrom fuel R S = matchAll R S.
Proof.
  intros Hg H. unfold matchAll. destruct R as [src r g i li].
  cbn [source pattern global ignoreCase lastIndex] in *.
  apply matchAllFrom_fuel; [exact Hg | exact H | cbn [lastIndex]; lia].
Qed.

(** A [test] leaves an object that is not global as it was. *)
Lemma regExpBuiltinExec_not_global (R : RegExpObject) (S : jsstring) :
  global R = false -> snd (regExpBuiltinExec R S) = R.
Proof.
  intros Hg. unfold regExpBuiltinExec. rewrite Hg.
  destruct (List.length S <? 0); [reflexivity|].
  now destruct (searchFrom _ _ _) as [[i y]|].
Qed.

(** *** The scan of a patch *)

Section Scan.

Variable sigs : list RegExpObject.

Lemma pushFirstMatch_existsb (line : jsstring) (acc : list jsstring) :
  pushFirstMatch sigs line acc =
  acc ++ (if existsb (fun R => test R line) sigs
          then [JsString.trim line] else []).
Proof.
  induction sigs as [|R tl IH]; cbn [pushFirstMatch existsb].
  - now rewrite app_nil_r.
  - destruct (test R line); cbn [orb]; [reflexivity | exact IH].
Qed.

(** The [break]: the patterns after the first that matches are not
    consulted. *)
Lemma pushFirstMatch_break (before after : list RegExpObject)
    (R : RegExpObject) (line : jsstring) (acc : list jsstring) :
  Forall (fun P => test P line = false) before ->
  test R line = true ->
  pushFirstMatch (before ++ R :: after) line acc = acc ++ [JsString.trim line].
Proof.
  intros Hb HR. induction Hb as [|P tl HP _ IH]; cbn [pushFirstMatch app].
  - now rewrite HR.
  - now rewrite HP.
Qed.

End Scan.

Lemma lineEntries_filter (line : jsstring) :
  lineEntries line =
  if matchesSignature line then [JsString.trim line] else [].
Proof.
  unfold lineEntries, matchesSignature.
  now rewrite pushFirstMatch_existsb.
Qed.

Lemma pushFirstMatch_lineEntries (line : jsstring) (acc : list jsstring) :
  pushFirstMatch routePatterns line acc = acc ++ lineEntries line.
Proof.
  unfold lineEntries. now rewrite !pushFirstMatch_existsb.
Qed.

Lemma scanLines_flat_map (lines : list jsstring) :
  forall acc, scanLines lines acc = acc ++ flat_map lineEntries lines.
Proof.
  induction lines as [|line tl IH]; intros acc; cbn [scanLines flat_map].
  - now rewrite app_nil_r.
  - now rewrite IH, pushFirstMatch_lineEntries, app_assoc.
Qed.

Lemma flat_map_lineEntries (lines : list jsstring) :
  flat_map lineEntries lines =
  List.map JsString.trim (filter matchesSignature lines).
Proof.
  induction lines as [|line tl IH]; cbn [flat_map filter List.map].
  - reflexivity.
  - rewrite lineEntries_filter, IH.
    now destruct (matchesSignature line).
Qed.

Lemma changes_toRecord (file : ChangedFile) (text : jsstring) :
  truthy (patch file) = Some text ->
  changes (toRecord file) = flat_map lineEntries (JsString.splitLines text).
Proof.
  intros H. unfold toRecord. cbn [changes]. rewrite H.
  now rewrite scanLines_flat_map.
Qed.

(** *** The path filter *)

Lemma filterFiles_incl (apiPatterns : list jsstring) (files : list ChangedFile) :
  forall kept, filterFiles apiPatterns files = Return kept -> incl kept files.
Proof.
  induction files as [|file tl IH]; cbn [filterFiles]; intros kept H.
  - injection H as <-. apply incl_refl.
  - destruct (somePattern apiPatterns (filename file)) as [keep| |];
      cbn [bind] in H; try discriminate.
    destruct (filterFiles apiPatterns tl) as [rest| |];
      cbn [bind] in H; try discriminate.
    injection H as <-. specialize (IH rest eq_refl).
    destruct keep.
    + apply incl_cons; [now left | now apply incl_tl].
    + now apply incl_tl.
Qed.

Lemma detect_records (files : list ChangedFile) (apiPatterns : list jsstring)
    (records : list ChangeRecord) :
  detectApiChanges files apiPatterns = Return records ->
  exists kept, filterFiles apiPatterns files = Return kept
               /\ incl kept files
               /\ records = List.map toRecord kept.
Proof.
  unfold detectApiChanges. intros H.
  destruct (filterFiles apiPatterns files) as [kept| |] eqn:E;
    cbn [bind] in H; try discriminate.
  injection H as <-. exists kept. repeat split.
  now apply filterFiles_incl with apiPatterns.
Qed.

Example twoCalls_two_signatures :
  List.map (fun R => test R twoCalls) routePatterns
  = [false; true; true; false; false; false; false]
  /\ lineEntries twoCalls = [js "app.get('/a', listA); router.get('/b', listB);"].
Proof. split; vm_compute; reflexivity. Qed.

(** *** The diff classifier *)

(** C4, as stated, fails: in a kept file whose patch has no added line at
    all, the hunk header, the context line and the removed line each produce
    an entry. *)
Lemma C4_counterexample :
  detectApiChanges [removalFile] [js "**/api/**"] = Return [removalRecord]
  /\ JsString.splitLines removalPatch = [hunkHeader; contextLine; removedLine]
  /\ Forall (fun line => hd_error line <> Some 43%N)
       (JsString.splitLines removalPatch)
  /\ changes removalRecord <> [].
Proof.
  split; [vm_compute; reflexivity|].
  split; [vm_compute; reflexivity|].
  split; [|discriminate].
  repeat constructor; vm_compute; discriminate.
Qed.

(** C4, amended: for every record that [detectApiChanges] returns, made from
    a kept file with a non-empty patch, every line of the patch is tested,
    whatever its first character (added, removed, context or hunk header),
    and [changes] is, in patch order, the trimmed text of exactly the lines
    on which some route pattern tests true. *)
Theorem C4_every_patch_line_is_scanned :
  forall files apiPatterns records rec,
    detectApiChanges files apiPatterns = Return records ->
    In rec records ->
    exists file,
      In file files /\ rec = toRecord file
      /\ forall text, truthy (patch file) = Some text ->
           changes rec =
           List.map JsString.trim
             (filter matchesSignature (JsString.splitLines text)).
Proof.
  intros files apiPatterns records rec Hd Hin.
  destruct (detect_records _ _ _ Hd) as (kept & _ & Hincl & ->).
  apply in_map_iff in Hin as (file & <- & Hk).
  exists file. split; [now apply Hincl|]. split; [reflexivity|].
  intros text Ht.
  now rewrite (changes_toRecord _ _ Ht), flat_map_lineEntries.
Qed.

Lemma C4_every_patch_line_is_scanned_witness :
  exists file,
    In file [removalFile] /\ removalRecord = toRecord file
    /\ forall text, truthy (patch file) = Some text ->
         changes removalRecord =
         List.map JsString.trim
           (filter matchesSignature (JsString.splitLines text)).
Proof.
  apply (C4_every_patch_line_is_scanned [removalFile] [js "**/api/**"]
           [removalRecord] removalRecord).
  - vm_compute; reflexivity.
  - simpl; left; reflexivity.
Defined.

(** C6: in every returned record, [changes] is the concatenation, line by
    line of the patch, of what each line adds, and a line adds at most one
    entry: its trimmed text, pushed at the first route pattern in table
    order that tests true (the patterns after it are not consulted), and
    nothing when no pattern tests true. *)
Theorem C6_at_most_one_entry_per_line :
  forall files apiPatterns records rec,
    detectApiChanges files apiPatterns = Return records ->
    In rec records ->
    exists file,
      In file files /\ rec = toRecord file
      /\ (forall text, truthy (patch file) = Some text ->
            changes rec = flat_map lineEntries (JsString.splitLines text))
      /\ forall line,
           List.length (lineEntries line) <= 1
           /\ (forall acc,
                 pushFirstMatch routePatterns line acc = acc ++ lineEntries line)
           /\ (forall before R after,
                 routePatterns = before ++ R :: after ->
                 Forall (fun P => test P line = false) before ->
                 test R line = true ->
                 lineEntries line = [JsString.trim line])
           /\ ((forall R, In R routePatterns -> test R line = false) ->
               lineEntries line = []).
Proof.
  intros files apiPatterns records rec Hd Hin.
  destruct (detect_records _ _ _ Hd) as (kept & _ & Hincl & ->).
  apply in_map_iff in Hin as (file & <- & Hk).
  exists file. split; [now apply Hincl|]. split; [reflexivity|].
  split; [intros text Ht; now apply changes_toRecord|].
  intros line. repeat split.
  - rewrite lineEntries_filter. destruct (matchesSignature line); simpl; lia.
  - apply pushFirstMatch_lineEntries.
  - intros before R after E Hb HR. unfold lineEntries. rewrite E.
    now rewrite (pushFirstMatch_break before after R line [] Hb HR).
  - intros Hall. rewrite lineEntries_filter. unfold matchesSignature.
    replace (existsb (fun R => test R line) routePatterns) with false;
      [reflexivity|].
    symmetry. apply not_true_is_false. intros Hex.
    apply existsb_exists in Hex as (R & HR & Ht).
    rewrite (Hall R HR) in Ht. discriminate.
Qed.

Lemma C6_at_most_one_entry_per_line_witness :
  exists file,
    In file [removalFile] /\ removalRecord = toRecord file
    /\ (forall text, truthy (patch file) = Some text ->
          changes removalRecord
          = flat_map lineEntries (JsString.splitLines text))
    /\ forall line,
         List.length (lineEntries line) <= 1
         /\ (forall acc,
               pushFirstMatch routePatterns line acc = acc ++ lineEntries line)
         /\ (forall before R after,
               routePatterns = before ++ R :: after ->
               Forall (fun P => test P line = false) before ->
               test R line = true ->
               lineEntries line = [JsString.trim line])
         /\ ((forall R, In R routePatterns -> test R line = false) ->
             lineEntries line = []).
Proof.
  apply (C6_at_most_one_entry_per_line [removalFile] [js "**/api/**"]
           [removalRecord] removalRecord).
  - vm_compute; reflexivity.
  - simpl; left; reflexivity.
Defined.

(** *** The path matcher *)

Lemma matchesPattern_valid (pattern name : jsstring) :
  validPattern pattern ->
  matchesPattern pattern name = Return (matchesOr pattern name).
Proof.
  intros [R HR]. unfold matchesOr, matchesPattern. now rewrite HR.
Qed.

Lemma matchesPattern_throws (pattern name : jsstring) :
  parse (JsString.replaceStar pattern) = SyntaxError ->
  matchesPattern pattern name = SyntaxError.
Proof.
  intros H. unfold matchesPattern, regExpCreate. now rewrite H.
Qed.

Lemma somePattern_valid (apiPatterns : list jsstring) (name : jsstring) :
  Forall validPattern apiPatterns ->
  somePattern apiPatterns name
  = Return (existsb (fun p => matchesOr p name) apiPatterns).
Proof.
  induction 1 as [|p tl Hp _ IH]; cbn [somePattern existsb].
  - reflexivity.
  - rewrite (matchesPattern_valid _ name Hp). cbn [bind].
    destruct (matchesOr p name); [reflexivity | exact IH].
Qed.

(** [some] stops at the first pattern whose evaluation throws, unless an
    earlier one matched. *)
Lemma somePattern_throws (before after : list jsstring)
    (pattern name : jsstring) :
  Forall (fun p => matchesPattern p name = Return false) before ->
  matchesPattern pattern name = SyntaxError ->
  somePattern (before ++ pattern :: after) name = SyntaxError.
Proof.
  intros Hb Hp. induction Hb as [|p tl H _ IH]; cbn [somePattern app].
  - now rewrite Hp.
  - now rewrite H.
Qed.

Lemma filterFiles_valid (apiPatterns : list jsstring)
    (files : list ChangedFile) :
  Forall validPattern apiPatterns ->
  filterFiles apiPatterns files
  = Return (filter (fun file =>
                      existsb (fun p => matchesOr p (filename file))
                        apiPatterns) files).
Proof.
  intros Hv. induction files as [|file tl IH]; cbn [filterFiles filter].
  - reflexivity.
  - rewrite (somePattern_valid _ _ Hv), IH. reflexivity.
Qed.

Lemma detect_valid (apiPatterns : list jsstring) (files : list ChangedFile) :
  Forall validPattern apiPatterns ->
  detectApiChanges files apiPatterns
  = Return (List.map toRecord
              (filter (fun file =>
                         existsb (fun p => matchesOr p (filename file))
                           apiPatterns) files)).
Proof.
  intros Hv. unfold detectApiChanges. now rewrite (filterFiles_valid _ _ Hv).
Qed.

(** C2, as stated, fails: [**/api/**] becomes [.*.*/api/.*.*], which needs
    the text [/api/] in the path; [src/apiary/foo.js] does not have it. *)
Lemma C2_counterexample :
  matchesPattern (js "**/api/**") (js "src/apiary/foo.js") = Return false
  /\ ~ (matchesPattern (js "**/api/**") (js "src/api/foo.js") = Return true
        /\ matchesPattern (js "**/api/**") (js "src/apiary/foo.js")
           = Return true
        /\ matchesPattern (js "**/api/**") (js "src/other/foo.js")
           = Return false).
Proof.
  split; [vm_compute; reflexivity|].
  intros (_ & H & _). vm_compute in H. discriminate.
Qed.

(** C2, amended: for the pattern [**/api/**] the path matcher returns true
    for [src/api/foo.js], false for [src/apiary/foo.js] and false for
    [src/other/foo.js]; so does the filter of [detectApiChanges]. *)
Theorem C2_api_pattern :
  matchesPattern (js "**/api/**") (js "src/api/foo.js") = Return true
  /\ matchesPattern (js "**/api/**") (js "src/apiary/foo.js") = Return false
  /\ matchesPattern (js "**/api/**") (js "src/other/foo.js") = Return false
  /\ filterFiles [js "**/api/**"]
       [ mkFile (js "src/api/foo.js") (js "modified") None;
         mkFile (js "src/apiary/foo.js") (js "modified") None;
         mkFile (js "src/other/foo.js") (js "modified") None ]
     = Return [ mkFile (js "src/api/foo.js") (js "modified") None ].
Proof.
  repeat split; vm_compute; reflexivity.
Qed.

(** C3, as stated, fails: the pattern [+server.ts] is not a valid regular
    expression, and evaluating it throws; with it first in [apiPatterns],
    [detectApiChanges] throws although a later pattern matches the file. *)
Lemma C3_counterexample :
  matchesPattern serverPattern (filename serverFile) = SyntaxError
  /\ matchesPattern (js "**/api/**") (filename serverFile) = Return true
  /\ detectApiChanges [serverFile] [serverPattern; js "**/api/**"]
     = SyntaxError.
Proof.
  repeat split; vm_compute; reflexivity.
Qed.

(** *** Inclusion by path alone *)

(** C5, as stated, fails: the file has no patch and its path matches the
    second pattern, but the first pattern is not a valid regular expression
    and [detectApiChanges] throws instead of returning a record. *)
Lemma C5_counterexample :
  patch serverFile = None
  /\ In (js "**/api/**") [serverPattern; js "**/api/**"]
  /\ matchesPattern (js "**/api/**") (filename serverFile) = Return true
  /\ forall records,
       detectApiChanges [serverFile] [serverPattern; js "**/api/**"]
       <> Return records.
Proof.
  split; [reflexivity|]. split; [simpl; tauto|].
  split; [vm_compute; reflexivity|].
  intros records H. vm_compute in H. discriminate.
Qed.

(** *** Scenario B: an added Spring annotation *)

Lemma addedAnnotation_trim : JsString.trim addedAnnotation = addedAnnotation.
Proof. vm_compute; reflexivity. Qed.

(** C9, as stated, fails: the translation of [**/*Controller*] is
    [.*.*/.*Controller.*], which needs a slash; the bare file name
    [CampaignController.java] does not match and no record is returned. *)
Lemma C9_counterexample :
  In addedAnnotation (JsString.splitLines (js "@@ -1,2 +1,3 @@" ++ nl ++ addedAnnotation))
  /\ detectApiChanges
       [ mkFile (js "CampaignController.java") (js "modified")
           (Some (js "@@ -1,2 +1,3 @@" ++ nl ++ addedAnnotation)) ]
       [ controllerPattern ]
     = Return [].
Proof.
  split; vm_compute; [tauto | reflexivity].
Qed.

Lemma splitLines_nonempty_line (text line : jsstring) :
  In line (JsString.splitLines text) -> line <> [] -> text <> [].
Proof.
  intros Hin Hne ->. cbn in Hin. destruct Hin as [<-|[]]. now apply Hne.
Qed.

(** *** The whole-file extractor *)

Section Extract.

Variables (line : jsstring) (index : nat).

Lemma pushMatches_app (sig : Signature) (matches : list ExecResult) :
  forall acc,
    pushMatches sig line index matches acc
    = acc ++ List.map (endpointOf sig line index) matches.
Proof.
  induction matches as [|m tl IH]; intros acc; cbn [pushMatches List.map].
  - now rewrite app_nil_r.
  - now rewrite IH, <- app_assoc.
Qed.

Lemma scanSignatures_app (sigs : list Signature) :
  forall acc,
    scanSignatures sigs line index acc
    = acc ++ flat_map (fun sig =>
                         List.map (endpointOf sig line index)
                           (matchAll (regex sig) line)) sigs.
Proof.
  induction sigs as [|sig tl IH]; intros acc; cbn [scanSignatures flat_map].
  - now rewrite app_nil_r.
  - now rewrite IH, pushMatches_app, <- app_assoc.
Qed.

Lemma lineEndpoints_origin (e : Endpoint) :
  In e (lineEndpoints line index) ->
  handler e = JsString.trim line /\ lineNumber e = index + 1.
Proof.
  unfold lineEndpoints. rewrite scanSignatures_app. cbn [app].
  intros H. apply in_flat_map in H as (sig & _ & H).
  apply in_map_iff in H as (m & <- & _). split; reflexivity.
Qed.

Lemma lineEndpoints_noSignature :
  noSignature line = true -> lineEndpoints line index = [].
Proof.
  unfold noSignature, lineEndpoints. rewrite scanSignatures_app. cbn [app].
  induction patterns as [|sig tl IH]; cbn [forallb flat_map];
    [reflexivity|].
  intros H. apply andb_prop in H as [H1 H2].
  destruct (matchAll (regex sig) line); [|discriminate].
  cbn [List.map app]. now apply IH.
Qed.

End Extract.

Lemma forEachLine_app (lines : list jsstring) :
  forall index acc,
    forEachLine lines index acc = acc ++ endpointsFrom lines index.
Proof.
  induction lines as [|line tl IH]; intros index acc;
    cbn [forEachLine endpointsFrom].
  - now rewrite app_nil_r.
  - rewrite IH, scanSignatures_app. unfold lineEndpoints.
    rewrite (scanSignatures_app line index patterns []). cbn [app].
    now rewrite <- app_assoc.
Qed.

Lemma extract_endpointsFrom (content filename : jsstring) :
  extractApiEndpoints content filename
  = endpointsFrom (JsString.splitLines content) 0.
Proof.
  unfold extractApiEndpoints. now rewrite forEachLine_app.
Qed.

Lemma endpointsFrom_app (pre post : list jsstring) :
  forall index,
    endpointsFrom (pre ++ post) index
    = endpointsFrom pre index ++ endpointsFrom post (index + List.length pre).
Proof.
  induction pre as [|line tl IH]; intros index;
    cbn [endpointsFrom app List.length].
  - now rewrite Nat.add_0_r.
  - rewrite IH, <- app_assoc. do 3 f_equal. lia.
Qed.

Lemma endpointsFrom_noSignature (lines : list jsstring) :
  Forall (fun l => noSignature l = true) lines ->
  forall index, endpointsFrom lines index = [].
Proof.
  induction 1 as [|line tl H _ IH]; intros index; cbn [endpointsFrom].
  - reflexivity.
  - now rewrite (lineEndpoints_noSignature line index H), IH.
Qed.

Lemma endpointsFrom_origin (lines : list jsstring) (e : Endpoint) :
  forall index,
    In e (endpointsFrom lines index) ->
    exists k line,
      nth_error lines k = Some line /\ In e (lineEndpoints line (index + k)).
Proof.
  induction lines as [|line tl IH]; intros index H; cbn [endpointsFrom] in H.
  - destruct H.
  - apply in_app_or in H as [H|H].
    + exists 0, line. rewrite Nat.add_0_r. now split.
    + destruct (IH _ H) as (k & l & Hk & Hin).
      exists (S k), l. split; [exact Hk|].
      now replace (index + S k) with (S index + k) by lia.
Qed.

Lemma scenarioContent_twelfthLineOnly :
  twelfthLineOnly scenarioContent scenarioLine.
Proof.
  exists (repeat (js "// user routes") 11), [js "module.exports = router;"].
  split; [vm_compute; reflexivity|]. split; [reflexivity|].
  apply Forall_forall. apply forallb_forall. vm_compute. reflexivity.
Defined.

(** The line matches the Express signature and, because of its [i] flag,
    the Go Gin signature too. *)
Lemma scenarioLine_endpoints :
  lineEndpoints scenarioLine 11 = [scenarioEndpoint; scenarioEndpoint]
  /\ List.map (fun sig => List.length (matchAll (regex sig) scenarioLine))
       patterns = [1; 0; 0; 0; 1].
Proof. split; vm_compute; reflexivity. Qed.

(** C1, as stated, fails: on a content whose twelfth line is the route
    declaration and whose other lines match no signature, the result has two
    descriptors, not one. *)
Lemma C1_counterexample :
  twelfthLineOnly scenarioContent scenarioLine
  /\ extractApiEndpoints scenarioContent (js "routes/users.js")
     <> [scenarioEndpoint].
Proof.
  split; [exact scenarioContent_twelfthLineOnly|].
  vm_compute. discriminate.
Qed.

(** C1, amended: for every content whose twelfth line is exactly
    [router.get('/users/:id', getUser);] and whose other lines match no
    signature, [extractApiEndpoints] returns exactly two descriptors, both
    equal to the expected one: method GET, path [/users/:id], the line as
    handler, line number 12.  The first comes from the Express signature,
    the second from the Go Gin signature. *)
Theorem C1_scenario_yields_two_descriptors :
  forall content filename,
    twelfthLineOnly content scenarioLine ->
    extractApiEndpoints content filename
    = [scenarioEndpoint; scenarioEndpoint].
Proof.
  intros content filename (pre & post & Hs & Hl & Hn).
  rewrite extract_endpointsFrom, Hs, endpointsFrom_app.
  cbn [endpointsFrom]. apply Forall_app in Hn as [Hpre Hpost].
  rewrite (endpointsFrom_noSignature pre Hpre).
  rewrite (endpointsFrom_noSignature post Hpost).
  rewrite Hl, app_nil_r. cbn [app Nat.add].
  exact (proj1 scenarioLine_endpoints).
Qed.

Lemma C1_scenario_yields_two_descriptors_witness :
  extractApiEndpoints scenarioContent (js "routes/users.js")
  = [scenarioEndpoint; scenarioEndpoint].
Proof.
  apply (C1_scenario_yields_two_descriptors scenarioContent
           (js "routes/users.js")).
  exact scenarioContent_twelfthLineOnly.
Defined.

(** C7: every descriptor that [extractApiEndpoints] returns has a line
    number between 1 and the number of lines of the content split at line
    feeds, its handler is the trimmed text of the line of that number, and
    the result, numbering included, is a function of the text alone: any
    invocation on the same text returns the same list. *)
Theorem C7_line_numbers :
  forall content filename e,
    In e (extractApiEndpoints content filename) ->
    1 <= lineNumber e <= List.length (JsString.splitLines content)
    /\ (exists line,
          nth_error (JsString.splitLines content) (lineNumber e - 1)
          = Some line
          /\ handler e = JsString.trim line)
    /\ forall filename',
         extractApiEndpoints content filename'
         = extractApiEndpoints content filename.
Proof.
  intros content filename e H.
  rewrite extract_endpointsFrom in H.
  apply endpointsFrom_origin in H as (k & line & Hk & Hin).
  apply lineEndpoints_origin in Hin as [Hh Hn]. cbn [Nat.add] in Hn.
  assert (Hlt : k < List.length (JsString.splitLines content))
    by (apply nth_error_Some; intros E;
        unfold jsstring, JsString.t in *; congruence).
  split; [lia|]. split.
  - exists line. split; [|exact Hh].
    now replace (lineNumber e - 1) with k by lia.
  - intros filename'. now rewrite !extract_endpointsFrom.
Qed.

Lemma C7_line_numbers_witness :
  1 <= lineNumber scenarioEndpoint
    <= List.length (JsString.splitLines scenarioContent)
  /\ (exists line,
        nth_error (JsString.splitLines scenarioContent)
          (lineNumber scenarioEndpoint - 1) = Some line
        /\ handler scenarioEndpoint = JsString.trim line)
  /\ forall filename',
       extractApiEndpoints scenarioContent filename'
       = extractApiEndpoints scenarioContent (js "routes/users.js").
Proof.
  apply (C7_line_numbers scenarioContent (js "routes/users.js")
           scenarioEndpoint).
  vm_compute. left. reflexivity.
Defined.

(** ** Further properties *)

(** *** Trimming *)

Lemma dropWhile_head (p : N -> bool) (s : jsstring) :
  forall c tl, JsString.dropWhile p s = c :: tl -> p c = false.
Proof.
  induction s as [|a s IH]; intros c tl H; cbn [JsString.dropWhile] in H.
  - discriminate.
  - destruct (p a) eqn:E; [now apply IH with tl|].
    now injection H as <- <-.
Qed.

Lemma dropWhile_snoc (p : N -> bool) (s : jsstring) (c : N) :
  p c = false ->
  JsString.dropWhile p (s ++ [c]) = JsString.dropWhile p s ++ [c].
Proof.
  intros Hc. induction s as [|a s IH]; cbn [JsString.dropWhile app].
  - now rewrite Hc.
  - now destruct (p a).
Qed.

Lemma dropWhile_fixed (p : N -> bool) (s : jsstring) :
  (forall c tl, s = c :: tl -> p c = false) -> JsString.dropWhile p s = s.
Proof.
  destruct s as [|a s]; intros H; cbn [JsString.dropWhile]; [reflexivity|].
  now rewrite (H a s eq_refl).
Qed.

Lemma trim_trimmed (s : jsstring) : trimmed (JsString.trim s).
Proof.
  unfold trimmed, JsString.trim. split.
  - intros c tl H.
    destruct (JsString.dropWhile JsString.isWhiteSpace s) as [|a t] eqn:E.
    + discriminate.
    + pose proof (dropWhile_head _ _ _ _ E) as Ha.
      cbn [rev] in H. rewrite (dropWhile_snoc _ _ _ Ha), rev_app_distr in H.
      cbn [rev app] in H. now injection H as <- _.
  - intros init c H.
    apply (f_equal (@rev N)) in H.
    rewrite rev_involutive, rev_app_distr in H. cbn [rev app] in H.
    now apply dropWhile_head in H.
Qed.

Lemma trimmed_trim (s : jsstring) : trimmed s -> JsString.trim s = s.
Proof.
  intros [Hh Hl]. unfold JsString.trim.
  rewrite (dropWhile_fixed _ _ Hh).
  rewrite dropWhile_fixed; [apply rev_involutive|].
  intros c tl H. apply (f_equal (@rev N)) in H.
  rewrite rev_involutive in H. cbn [rev] in H. now apply Hl with (rev tl).
Qed.

(** *** The records of [detectApiChanges] *)

Lemma somePattern_true_iff (apiPatterns : list jsstring) (name : jsstring) :
  forall b,
    somePattern apiPatterns name = Return b ->
    (b = true <->
     exists p, In p apiPatterns /\ matchesPattern p name = Return true).
Proof.
  induction apiPatterns as [|q tl IH]; cbn [somePattern]; intros b H.
  - injection H as <-. split; [discriminate | intros (p & [] & _)].
  - destruct (matchesPattern q name) as [[|]| |] eqn:E; cbn [bind] in H;
      try discriminate.
    + injection H as <-. split; [|reflexivity].
      intros _. exists q. split; [now left | exact E].
    + rewrite (IH b H). split; intros (p & Hin & Hp).
      * exists p. split; [now right | exact Hp].
      * destruct Hin as [<-|Hin]; [congruence|]. now exists p.
Qed.

Lemma filterFiles_keeps (apiPatterns : list jsstring)
    (files : list ChangedFile) :
  forall kept,
    filterFiles apiPatterns files = Return kept ->
    kept = filter (keeps apiPatterns) files
    /\ Forall (fun f => exists b,
                 somePattern apiPatterns (filename f) = Return b) files.
Proof.
  induction files as [|file tl IH]; cbn [filterFiles filter]; intros kept H.
  - injection H as <-. split; [reflexivity | constructor].
  - unfold keeps at 1.
    destruct (somePattern apiPatterns (filename file)) as [keep| |] eqn:E;
      cbn [bind] in H; try discriminate.
    destruct (filterFiles apiPatterns tl) as [rest| |];
      cbn [bind] in H; try discriminate.
    injection H as <-. destruct (IH rest eq_refl) as [-> Hall].
    split; [now destruct keep|].
    constructor; [now exists keep | exact Hall].
Qed.

Lemma detect_filter_keeps (files : list ChangedFile)
    (apiPatterns : list jsstring) (records : list ChangeRecord) :
  detectApiChanges files apiPatterns = Return records ->
  records = List.map toRecord (filter (keeps apiPatterns) files)
  /\ (forall file, In file files ->
        (keeps apiPatterns file = true <->
         exists p, In p apiPatterns
                   /\ matchesPattern p (filename file) = Return true)).
Proof.
  intros H.
  destruct (detect_records _ _ _ H) as (kept & Hk & _ & ->).
  destruct (filterFiles_keeps _ _ _ Hk) as [-> Hall].
  split; [reflexivity|].
  intros file Hin. rewrite Forall_forall in Hall.
  destruct (Hall file Hin) as [b Hb]. unfold keeps. rewrite Hb.
  now apply somePattern_true_iff.
Qed.

(** X1: when [detectApiChanges] returns, its records are those of the files
    that [some] keeps, one record per kept file and in the order of the
    input; a file is kept exactly when one of the patterns matches its
    name; every record has [isApiFile = true] and there are no more records
    than files. *)
Theorem detect_keeps_matching_files_in_order :
  forall files apiPatterns records,
    detectApiChanges files apiPatterns = Return records ->
    records = List.map toRecord (filter (keeps apiPatterns) files)
    /\ (forall file, In file files ->
          (keeps apiPatterns file = true <->
           exists p, In p apiPatterns
                     /\ matchesPattern p (filename file) = Return true))
    /\ Forall (fun rec => isApiFile rec = true) records
    /\ List.length records <= List.length files.
Proof.
  intros files apiPatterns records H.
  destruct (detect_filter_keeps _ _ _ H) as [-> Hk].
  split; [reflexivity|]. split; [exact Hk|]. split.
  - apply Forall_forall. intros rec Hin.
    apply in_map_iff in Hin as (file & <- & _). reflexivity.
  - rewrite length_map. apply filter_length_le.
Qed.

Lemma detect_keeps_matching_files_in_order_witness :
  [removalRecord]
  = List.map toRecord (filter (keeps [js "**/api/**"]) [removalFile])
  /\ (forall file, In file [removalFile] ->
        (keeps [js "**/api/**"] file = true <->
         exists p, In p [js "**/api/**"]
                   /\ matchesPattern p (filename file) = Return true))
  /\ Forall (fun rec => isApiFile rec = true) [removalRecord]
  /\ List.length [removalRecord] <= List.length [removalFile].
Proof.
  apply (detect_keeps_matching_files_in_order [removalFile]
           [js "**/api/**"] [removalRecord]).
  vm_compute. reflexivity.
Defined.

(** X2: [some] stops at the first pattern that matches.  When, for every
    file, the patterns before [p] return false and [p] matches, the result
    is the record of every file, whatever stands after [p] in
    [apiPatterns]: a pattern there is not evaluated, so it cannot throw. *)
Theorem detect_ignores_patterns_after_match :
  forall files before p after,
    (forall file, In file files ->
       Forall (fun q => matchesPattern q (filename file) = Return false)
         before
       /\ matchesPattern p (filename file) = Return true) ->
    detectApiChanges files (before ++ p :: after)
    = Return (List.map toRecord files).
Proof.
  intros files before p after H. unfold detectApiChanges.
  assert (Hf : filterFiles (before ++ p :: after) files = Return files).
  { induction files as [|file tl IH]; cbn [filterFiles]; [reflexivity|].
    destruct (H file (or_introl eq_refl)) as [Hb Hp].
    assert (Hs : somePattern (before ++ p :: after) (filename file)
                 = Return true).
    { clear -Hb Hp. induction Hb as [|q l Hq _ IHb]; cbn [somePattern app].
      - now rewrite Hp.
      - now rewrite Hq. }
    rewrite Hs, IH; [reflexivity|].
    intros f Hin. apply H. now right. }
  now rewrite Hf.
Qed.

Lemma detect_ignores_patterns_after_match_witness :
  detectApiChanges [serverFile] ([] ++ js "**/api/**" :: [serverPattern])
  = Return (List.map toRecord [serverFile]).
Proof.
  apply (detect_ignores_patterns_after_match [serverFile] []
           (js "**/api/**") [serverPattern]).
  intros file [<-|[]]. split; [constructor|]. vm_compute. reflexivity.
Defined.

(** X3: with no file, or with no pattern, [detectApiChanges] returns the
    empty list; with no file it does so even when a pattern is not a valid
    regular expression, since no pattern is evaluated. *)
Theorem detect_empty_input :
  forall files apiPatterns,
    files = [] \/ apiPatterns = [] ->
    detectApiChanges files apiPatterns = Return [].
Proof.
  intros files apiPatterns [-> | ->]; [reflexivity|].
  unfold detectApiChanges.
  assert (H : filterFiles [] files = Return []).
  { induction files as [|file tl IH]; cbn [filterFiles somePattern bind];
      [reflexivity | now rewrite IH]. }
  now rewrite H.
Qed.

Lemma detect_empty_input_witness :
  detectApiChanges [serverFile] [] = Return []
  /\ detectApiChanges [] [serverPattern] = Return [].
Proof.
  split.
  - apply (detect_empty_input [serverFile] []). right. reflexivity.
  - apply (detect_empty_input [] [serverPattern]). left. reflexivity.
Defined.

(** X4: appending patterns to [apiPatterns] only adds records: every record
    returned for a list of patterns is returned again for the longer list,
    when the call with the longer list returns. *)
Theorem detect_more_patterns_more_records :
  forall files apiPatterns extra records records',
    detectApiChanges files apiPatterns = Return records ->
    detectApiChanges files (apiPatterns ++ extra) = Return records' ->
    incl records records'.
Proof.
  intros files apiPatterns extra records records' H H'.
  destruct (detect_filter_keeps _ _ _ H) as [-> Hk].
  destruct (detect_filter_keeps _ _ _ H') as [-> Hk'].
  intros rec Hin. apply in_map_iff in Hin as (file & <- & Hf).
  apply filter_In in Hf as [Hin Hkeep]. apply in_map. apply filter_In.
  split; [exact Hin|].
  apply (Hk' file Hin). apply (Hk file Hin) in Hkeep as (p & Hp & Hm).
  exists p. split; [|exact Hm]. apply in_or_app. now left.
Qed.

Lemma detect_more_patterns_more_records_witness :
  incl [removalRecord]
    [removalRecord; toRecord serverFile].
Proof.
  apply (detect_more_patterns_more_records [removalFile; serverFile]
           [js "**/users*"] [js "**/routes/**"]).
  - vm_compute. reflexivity.
  - vm_compute. reflexivity.
Defined.

(** X5: in every returned record, [changes] has at most one entry per line
    of the patch (none when the patch is absent), and every entry is the
    trimmed text of a patch line on which a route pattern tests true; it
    neither starts nor ends with white space. *)
Theorem changes_are_trimmed_patch_lines :
  forall files apiPatterns records rec,
    detectApiChanges files apiPatterns = Return records ->
    In rec records ->
    exists file,
      In file files /\ rec = toRecord file
      /\ List.length (changes rec) <= patchLines (patch file)
      /\ forall entry, In entry (changes rec) ->
           trimmed entry
           /\ exists text line,
                patch file = Some text
                /\ In line (JsString.splitLines text)
                /\ matchesSignature line = true
                /\ entry = JsString.trim line.
Proof.
  intros files apiPatterns records rec Hd Hin.
  destruct (detect_records _ _ _ Hd) as (kept & _ & Hincl & ->).
  apply in_map_iff in Hin as (file & <- & Hk).
  exists file. split; [now apply Hincl|]. split; [reflexivity|].
  destruct (patch file) as [[|c text]|] eqn:Ep.
  - unfold toRecord. rewrite Ep. cbn. split; [lia | intros entry []].
  - assert (Ht : truthy (patch file) = Some (c :: text)) by now rewrite Ep.
    rewrite (changes_toRecord _ _ Ht), flat_map_lineEntries.
    split.
    + rewrite length_map. cbn [patchLines]. apply filter_length_le.
    + intros entry He. apply in_map_iff in He as (line & <- & Hl).
      apply filter_In in Hl as [Hl Hm].
      split; [apply trim_trimmed|]. now exists (c :: text), line.
  - unfold toRecord. rewrite Ep. cbn. split; [lia | intros entry []].
Qed.

Lemma changes_are_trimmed_patch_lines_witness :
  exists file,
    In file [removalFile] /\ removalRecord = toRecord file
    /\ List.length (changes removalRecord) <= patchLines (patch file)
    /\ forall entry, In entry (changes removalRecord) ->
         trimmed entry
         /\ exists text line,
              patch file = Some text
              /\ In line (JsString.splitLines text)
              /\ matchesSignature line = true
              /\ entry = JsString.trim line.
Proof.
  apply (changes_are_trimmed_patch_lines [removalFile] [js "**/api/**"]
           [removalRecord] removalRecord).
  - vm_compute. reflexivity.
  - simpl. left. reflexivity.
Defined.

(** *** The descriptors of [extractApiEndpoints] *)

Lemma StronglySorted_app (l1 l2 : list nat) :
  StronglySorted le l1 -> StronglySorted le l2 ->
  (forall a b, In a l1 -> In b l2 -> a <= b) ->
  StronglySorted le (l1 ++ l2).
Proof.
  intros H1 H2 H. induction H1 as [|a l Hl IH Ha]; cbn [app]; [exact H2|].
  constructor.
  - apply IH. intros x y Hx Hy. apply H; [now right | exact Hy].
  - apply Forall_app. split; [exact Ha|].
    apply Forall_forall. intros y Hy. apply H; [now left | exact Hy].
Qed.

Lemma StronglySorted_constant (n : nat) (l : list nat) :
  Forall (eq n) l -> StronglySorted le l.
Proof.
  induction 1 as [|a l <- Hl IH]; constructor; [exact IH|].
  apply Forall_forall. intros y Hy. rewrite Forall_forall in Hl.
  now rewrite <- (Hl y Hy).
Qed.

Lemma endpointsFrom_above (lines : list jsstring) (e : Endpoint) :
  forall index, In e (endpointsFrom lines index) -> index < lineNumber e.
Proof.
  intros index H. apply endpointsFrom_origin in H as (k & line & _ & H).
  apply lineEndpoints_origin in H as [_ ->]. lia.
Qed.

Lemma endpointsFrom_sorted (lines : list jsstring) :
  forall index,
    StronglySorted le (List.map lineNumber (endpointsFrom lines index)).
Proof.
  induction lines as [|line tl IH]; intros index; cbn [endpointsFrom].
  - constructor.
  - rewrite map_app. apply StronglySorted_app; [|apply IH|].
    + apply StronglySorted_constant with (index + 1).
      apply Forall_forall. intros n Hn.
      apply in_map_iff in Hn as (e & <- & He).
      now apply lineEndpoints_origin in He as [_ ->].
    + intros a b Ha Hb.
      apply in_map_iff in Ha as (e & <- & He).
      apply in_map_iff in Hb as (e' & <- & He').
      apply lineEndpoints_origin in He as [_ ->].
      apply endpointsFrom_above in He'. lia.
Qed.

(** X6: the descriptors come out in the order of the lines: their line
    numbers never decrease along the result. *)
Theorem extract_line_numbers_ascend :
  forall content filename,
    StronglySorted le
      (List.map lineNumber (extractApiEndpoints content filename)).
Proof.
  intros content filename. rewrite extract_endpointsFrom.
  apply endpointsFrom_sorted.
Qed.

Lemma splitLines_cons (s : jsstring) :
  exists h t, JsString.splitLines s = h :: t.
Proof.
  induction s as [|c s (h & t & IH)]; cbn [JsString.splitLines].
  - now exists [], [].
  - destruct (c =? 10)%N; [now eexists; eexists|].
    rewrite IH. now eexists; eexists.
Qed.

(** Splitting distributes over a line feed. *)
Lemma splitLines_app (a b : jsstring) :
  JsString.splitLines (a ++ nl ++ b)
  = JsString.splitLines a ++ JsString.splitLines b.
Proof.
  induction a as [|c a IH]; cbn [app JsString.splitLines nl].
  - reflexivity.
  - cbn [app nl] in IH. rewrite IH.
    destruct (c =? 10)%N; [reflexivity|].
    destruct (splitLines_cons a) as (h & t & ->). reflexivity.
Qed.

Lemma lineEndpoints_shift (line : jsstring) (index k : nat) :
  lineEndpoints line (index + k)
  = List.map (shiftLines k) (lineEndpoints line index).
Proof.
  unfold lineEndpoints. rewrite !scanSignatures_app. cbn [app].
  induction patterns as [|sig tl IH]; cbn [flat_map]; [reflexivity|].
  rewrite map_app, IH, map_map. f_equal.
  apply map_ext. intros m. unfold shiftLines, endpointOf.
  cbn [method path handler lineNumber]. f_equal. lia.
Qed.

Lemma endpointsFrom_shift (lines : list jsstring) (k : nat) :
  forall index,
    endpointsFrom lines (index + k)
    = List.map (shiftLines k) (endpointsFrom lines index).
Proof.
  induction lines as [|line tl IH]; intros index; cbn [endpointsFrom].
  - reflexivity.
  - rewrite map_app, lineEndpoints_shift. f_equal.
    now rewrite <- IH.
Qed.

(** X7: extraction works line by line.  The descriptors of two texts joined
    by a line feed are those of the first text followed by those of the
    second, the line numbers of the latter moved down by the number of
    lines of the first. *)
Theorem extract_concatenation :
  forall a b filename,
    extractApiEndpoints (a ++ nl ++ b) filename
    = extractApiEndpoints a filename
      ++ List.map (shiftLines (List.length (JsString.splitLines a)))
           (extractApiEndpoints b filename).
Proof.
  intros a b filename.
  rewrite !extract_endpointsFrom, splitLines_app, endpointsFrom_app.
  f_equal. apply (endpointsFrom_shift _ _ 0).
Qed.

Lemma upperChar_idempotent (c : N) :
  JsString.upperChar (JsString.upperChar c) = JsString.upperChar c.
Proof.
  unfold JsString.upperChar, JsString.isLower.
  destruct ((97 <=? c) && (c <=? 122))%N eqn:E; [|now rewrite E].
  apply andb_prop in E as [E1 E2].
  apply N.leb_le in E1. apply N.leb_le in E2.
  replace (97 <=? c - 32)%N with false; [reflexivity|].
  symmetry. apply N.leb_gt. lia.
Qed.

Lemma toUpperCase_idempotent (s : jsstring) :
  JsString.toUpperCase (JsString.toUpperCase s) = JsString.toUpperCase s.
Proof.
  unfold JsString.toUpperCase. rewrite map_map. apply map_ext.
  apply upperChar_idempotent.
Qed.

Lemma endpointOf_method (sig : Signature) (line : jsstring) (index : nat)
    (m : ExecResult) :
  method (endpointOf sig line index m) <> []
  /\ JsString.toUpperCase (method (endpointOf sig line index m))
     = method (endpointOf sig line index m).
Proof.
  unfold endpointOf. cbn [method].
  destruct (groupText m (methodIndex sig)) as [verb|];
    [|split; [discriminate | vm_compute; reflexivity]].
  destruct (JsString.toUpperCase verb) as [|c tl] eqn:E;
    [split; [discriminate | vm_compute; reflexivity]|].
  split; [discriminate|]. rewrite <- E. apply toUpperCase_idempotent.
Qed.

Lemma lineEndpoints_nil (line : jsstring) (index : nat) :
  lineEndpoints line index = [] -> noSignature line = true.
Proof.
  unfold lineEndpoints, noSignature. rewrite scanSignatures_app. cbn [app].
  induction patterns as [|sig tl IH]; cbn [flat_map forallb];
    [reflexivity|].
  intros H. apply app_eq_nil in H as [H1 H2].
  destruct (matchAll (regex sig) line); [|discriminate].
  now apply IH.
Qed.

(** X9: the result is empty exactly when no signature finds a match on any
    line of the content. *)
Theorem extract_nothing_iff_no_signature :
  forall content filename,
    extractApiEndpoints content filename = []
    <-> Forall (fun line => noSignature line = true)
          (JsString.splitLines content).
Proof.
  intros content filename. rewrite extract_endpointsFrom. split.
  - generalize 0.
    induction (JsString.splitLines content) as [|line tl IH];
      intros index H; [constructor|].
    cbn [endpointsFrom] in H. apply app_eq_nil in H as [H1 H2].
    constructor; [now apply lineEndpoints_nil with index | now apply IH with (S index)].
  - intros H. now apply endpointsFrom_noSignature.
Qed.

(** *** Glob patterns: parsing *)

Lemma plainChar_tests (c : N) :
  plainChar c = true ->
  ((c =? 94) = false /\ (c =? 36) = false /\ (c =? 92) = false
   /\ (c =? 46) = false /\ (c =? 42) = false /\ (c =? 43) = false
   /\ (c =? 63) = false /\ (c =? 40) = false /\ (c =? 41) = false
   /\ (c =? 91) = false /\ (c =? 124) = false /\ (c =? 123) = false)%N.
Proof.
  unfold plainChar. rewrite negb_true_iff, !orb_false_iff. tauto.
Qed.

Lemma globChar_cases (c : N) :
  globChar c = true -> c = 42%N \/ c = 46%N \/ plainChar c = true.
Proof.
  unfold globChar. rewrite !orb_true_iff, !N.eqb_eq. tauto.
Qed.

Lemma replaceStar_headOk (pattern : jsstring) :
  globPattern pattern -> headOk (JsString.replaceStar pattern) = true.
Proof.
  destruct pattern as [|c tl]; [reflexivity|].
  unfold globPattern. cbn [forallb]. intros H.
  apply andb_prop in H as [H _].
  apply globChar_cases in H as [-> | [-> | H]]; [reflexivity..|].
  apply plainChar_tests in H as (_&_&_&_&H42&H43&H63&_&_&_&_&H123).
  cbn [JsString.replaceStar flat_map]. rewrite H42. cbn [app headOk].
  unfold isQuantifierStart. now rewrite H42, H43, H63, H123.
Qed.

Lemma quantifier_none (atom : Regex) (s : jsstring) :
  headOk s = true -> quantifier atom s = Return (atom, s).
Proof.
  destruct s as [|c tl]; [reflexivity|]. cbn [headOk].
  unfold isQuantifierStart.
  rewrite negb_true_iff, !orb_false_iff. intros [[[H1 H2] H3] H4].
  unfold quantifier. now rewrite H1, H2, H3, H4.
Qed.

Lemma quantifier_star (atom : Regex) (s : jsstring) :
  headOk s = true ->
  quantifier atom (42%N :: s) = Return (Quant 0 None true atom, s).
Proof.
  destruct s as [|c tl]; [reflexivity|]. cbn [headOk].
  unfold isQuantifierStart.
  rewrite negb_true_iff, !orb_false_iff. intros [[[H1 H2] H3] H4].
  unfold quantifier. cbn. now rewrite H3.
Qed.

Lemma disjunction_plain (fuel : nat) (c : N) (tl : jsstring) (g : nat) :
  plainChar c = true ->
  disjunction (S fuel) (c :: tl) g
  = ' (term, s2) <- quantifier (Char c) tl ;;
    ' (a, alts, s3, g') <- disjunction fuel s2 g ;;
    Return (Seq term a, alts, s3, g').
Proof.
  intros H.
  apply plainChar_tests in H
    as (H94&H36&H92&H46&H42&H43&H63&H40&H41&H91&H124&H123).
  cbn [disjunction]. unfold isQuantifierStart.
  now rewrite H41, H124, H42, H43, H63, H123, H94, H36, H46, H91, H92, H40.
Qed.

Lemma disjunction_dot (fuel : nat) (tl : jsstring) (g : nat) :
  disjunction (S fuel) (46%N :: tl) g
  = ' (term, s2) <- quantifier Dot tl ;;
    ' (a, alts, s3, g') <- disjunction fuel s2 g ;;
    Return (Seq term a, alts, s3, g').
Proof. reflexivity. Qed.

Lemma disjunction_glob (pattern : jsstring) :
  globPattern pattern ->
  forall fuel g,
    List.length (JsString.replaceStar pattern) < fuel ->
    disjunction fuel (JsString.replaceStar pattern) g
    = Return (globRegex (globItems pattern), [], [], g).
Proof.
  induction pattern as [|c tl IH]; intros Hp fuel g Hf.
  - destruct fuel; [cbn in Hf; lia | reflexivity].
  - pose proof Hp as Hp'. unfold globPattern in Hp'. cbn [forallb] in Hp'.
    apply andb_prop in Hp' as [Hc Htl].
    pose proof (replaceStar_headOk tl Htl) as Hh.
    destruct fuel as [|fuel]; [lia|].
    apply globChar_cases in Hc as [-> | [-> | Hc]].
    + change (JsString.replaceStar (42%N :: tl))
        with (46%N :: 42%N :: JsString.replaceStar tl) in *.
      cbn [List.length] in Hf.
      rewrite disjunction_dot, (quantifier_star _ _ Hh). cbn [bind].
      rewrite (IH Htl) by lia. reflexivity.
    + change (JsString.replaceStar (46%N :: tl))
        with (46%N :: JsString.replaceStar tl) in *.
      cbn [List.length] in Hf.
      rewrite disjunction_dot, (quantifier_none _ _ Hh). cbn [bind].
      rewrite (IH Htl) by lia. reflexivity.
    + pose proof (plainChar_tests c Hc) as (_&_&_&H46&H42&_).
      assert (E : JsString.replaceStar (c :: tl)
                  = c :: JsString.replaceStar tl).
      { cbn [JsString.replaceStar flat_map]. now rewrite H42. }
      rewrite E in *. cbn [List.length] in Hf.
      rewrite (disjunction_plain _ _ _ _ Hc), (quantifier_none _ _ Hh).
      cbn [bind]. rewrite (IH Htl) by lia.
      cbn [globItems List.map globRegex]. unfold globItem.
      now rewrite H42, H46.
Qed.

Lemma parse_glob (pattern : jsstring) :
  globPattern pattern ->
  parse (JsString.replaceStar pattern)
  = Return (globRegex (globItems pattern)).
Proof.
  intros Hp. unfold parse.
  rewrite (disjunction_glob pattern Hp) by lia. reflexivity.
Qed.

Lemma globPattern_valid (pattern : jsstring) :
  globPattern pattern -> validPattern pattern.
Proof.
  intros Hp. unfold validPattern, regExpCreate.
  rewrite (parse_glob pattern Hp). cbn [bind]. now eexists.
Qed.

(** *** Glob patterns: matching *)

Lemma repeatMatcher_dot (k : Continuation) (kb : jsstring -> bool) :
  (forall i s caps, succeeds (k (mkState i s caps)) = kb s) ->
  forall s fuel i caps,
    List.length s < fuel ->
    succeeds (repeatMatcher fuel (compile false Dot) 0 None true []
                (mkState i s caps) k)
    = starHere kb s.
Proof.
  intros Hk. induction s as [|ch tl IH]; intros fuel i caps Hf;
    (destruct fuel as [|fuel]; [cbn in Hf; lia|]);
    cbn -[JsString.isLineTerminator].
  - now rewrite Hk, orb_false_r.
  - destruct (JsString.isLineTerminator ch); cbn [negb andb].
    + now rewrite Hk, orb_false_r.
    + assert (E : match i with 0 => false | S m' => i =? m' end = false).
      { destruct i as [|j]; [reflexivity|]. apply Nat.eqb_neq. lia. }
      rewrite E. cbn [List.length] in Hf.
      assert (Hlt : List.length tl < fuel) by lia.
      specialize (IH fuel (S i) (filter (fun _ => true) caps) Hlt).
      cbn [compile] in IH.
      destruct (repeatMatcher fuel _ 0 None true [] _ k) eqn:Er;
        cbn [succeeds] in *.
      * rewrite <- IH. now rewrite orb_true_r.
      * rewrite Hk, <- IH. now rewrite orb_false_r.
Qed.

Lemma compile_glob (items : list GlobItem) :
  forall i s caps,
    succeeds (compile false (globRegex items) (mkState i s caps)
                (fun y => Some y))
    = matchHere items s.
Proof.
  induction items as [|[c| |] r IH]; intros i s caps;
    cbn [globRegex compile matchHere].
  - reflexivity.
  - unfold characterSetMatcher. cbn [ahead endIndex captures].
    destruct s as [|ch tl]; [reflexivity|].
    destruct (ch =? c)%N; [apply IH | reflexivity].
  - unfold characterSetMatcher. cbn [ahead endIndex captures].
    destruct s as [|ch tl]; [reflexivity|].
    destruct (JsString.isLineTerminator ch); [reflexivity | apply IH].
  - cbn [groupsOf ahead Nat.add].
    apply (repeatMatcher_dot
             (fun y => compile false (globRegex r) y (fun z => Some z))
             (matchHere r)); [exact IH | lia].
Qed.

Lemma searchFrom_glob (items : list GlobItem) (s : jsstring) :
  forall i,
    succeeds (searchFrom (compile false (globRegex items)) i s)
    = globSearch items s.
Proof.
  induction s as [|ch tl IH]; intros i; cbn [searchFrom globSearch];
    rewrite <- (compile_glob items i _ []);
    destruct (compile false (globRegex items) _ _); cbn [succeeds orb];
    try reflexivity.
  apply IH.
Qed.

Lemma test_glob (src : jsstring) (items : list GlobItem) (path : jsstring) :
  test (mkRegExp src (globRegex items) false false 0) path
  = globSearch items path.
Proof.
  unfold test, regExpBuiltinExec.
  cbn [global lastIndex ignoreCase pattern skipn].
  replace (List.length path <? 0) with false
    by (symmetry; apply Nat.ltb_ge; lia).
  rewrite <- (searchFrom_glob items path 0).
  now destruct (searchFrom _ 0 path) as [[i y]|].
Qed.

Lemma matchesPattern_glob (pattern path : jsstring) :
  globPattern pattern ->
  matchesPattern pattern path
  = Return (globSearch (globItems pattern) path).
Proof.
  intros Hp. unfold matchesPattern, regExpCreate.
  rewrite (parse_glob pattern Hp). cbn [bind]. now rewrite test_glob.
Qed.

(** *** Glob patterns: what a match means *)

Lemma starHere_true (k : jsstring -> bool) (s : jsstring) :
  starHere k s = true ->
  exists run rest,
    s = run ++ rest
    /\ Forall (fun ch => JsString.isLineTerminator ch = false) run
    /\ k rest = true.
Proof.
  induction s as [|ch tl IH]; cbn [starHere]; intros H;
    apply orb_prop in H as [H|H].
  - now exists [], [].
  - discriminate.
  - now exists [], (ch :: tl).
  - apply andb_prop in H as [Hc H]. apply negb_true_iff in Hc.
    destruct (IH H) as (run & rest & -> & Hr & Hk).
    exists (ch :: run), rest. repeat split; [now constructor | exact Hk].
Qed.

Lemma starHere_run (k : jsstring -> bool) (run rest : jsstring) :
  Forall (fun ch => JsString.isLineTerminator ch = false) run ->
  k rest = true -> starHere k (run ++ rest) = true.
Proof.
  induction 1 as [|ch run Hc _ IH]; intros Hk; cbn [app].
  - destruct rest; cbn [starHere]; now rewrite Hk.
  - cbn [starHere]. rewrite Hc, (IH Hk). cbn [negb andb].
    apply orb_true_r.
Qed.

Lemma Spells_matchHere (items : list GlobItem) (mid : jsstring) :
  Spells items mid -> forall post, matchHere items (mid ++ post) = true.
Proof.
  induction 1 as [|c r s _ IH|ch r s Hc _ IH|run r s Hr _ IH]; intros post;
    cbn [matchHere app].
  - reflexivity.
  - now rewrite N.eqb_refl, IH.
  - now rewrite Hc, IH.
  - rewrite <- app_assoc. now apply starHere_run.
Qed.

Lemma matchHere_Spells (items : list GlobItem) :
  forall s,
    matchHere items s = true ->
    exists mid post, s = mid ++ post /\ Spells items mid.
Proof.
  induction items as [|[c| |] r IH]; intros s H; cbn [matchHere] in H.
  - exists [], s. split; [reflexivity | constructor].
  - destruct s as [|ch tl]; [discriminate|].
    apply andb_prop in H as [Hc H]. apply N.eqb_eq in Hc. subst ch.
    destruct (IH tl H) as (mid & post & -> & Hs).
    exists (c :: mid), post. split; [reflexivity | now constructor].
  - destruct s as [|ch tl]; [discriminate|].
    apply andb_prop in H as [Hc H]. apply negb_true_iff in Hc.
    destruct (IH tl H) as (mid & post & -> & Hs).
    exists (ch :: mid), post. split; [reflexivity | now constructor].
  - apply starHere_true in H as (run & rest & -> & Hr & H).
    destruct (IH rest H) as (mid & post & -> & Hs).
    exists (run ++ mid), post. split; [now rewrite app_assoc|].
    now constructor.
Qed.

Lemma globSearch_spelledIn (items : list GlobItem) (path : jsstring) :
  globSearch items path = true <-> spelledIn items path.
Proof.
  unfold spelledIn. split.
  - induction path as [|ch tl IH]; cbn [globSearch]; intros H;
      apply orb_prop in H as [H|H]; try discriminate.
    + apply matchHere_Spells in H as (mid & post & -> & Hs).
      now exists [], mid, post.
    + apply matchHere_Spells in H as (mid & post & E & Hs).
      exists [], mid, post. now split.
    + destruct (IH H) as (pre & mid & post & -> & Hs).
      now exists (ch :: pre), mid, post.
  - intros (pre & mid & post & -> & Hs).
    induction pre as [|ch pre IH]; cbn [app].
    + pose proof (Spells_matchHere _ _ Hs post) as Hm.
      destruct (mid ++ post); cbn [globSearch]; now rewrite Hm.
    + cbn [globSearch]. rewrite IH. apply orb_true_r.
Qed.

(** X10: for a pattern made of plain characters, dots and stars, the path
    matcher always returns, and it returns true exactly when some part of
    the path spells the pattern, each dot standing for one character that
    is not a line terminator and each star for any run of such characters.
    The match is not anchored: text before and after that part is free. *)
Theorem glob_pattern_meaning :
  forall pattern path,
    globPattern pattern ->
    (exists b, matchesPattern pattern path = Return b)
    /\ (matchesPattern pattern path = Return true
        <-> spelledIn (globItems pattern) path).
Proof.
  intros pattern path Hp. rewrite (matchesPattern_glob _ _ Hp).
  split; [now eexists|].
  rewrite <- globSearch_spelledIn. split; [congruence | now intros ->].
Qed.

Lemma glob_pattern_meaning_witness :
  (exists b, matchesPattern controllerPattern
               (js "src/main/java/CampaignController.java") = Return b)
  /\ (matchesPattern controllerPattern
        (js "src/main/java/CampaignController.java") = Return true
      <-> spelledIn (globItems controllerPattern)
            (js "src/main/java/CampaignController.java")).
Proof.
  apply (glob_pattern_meaning controllerPattern
           (js "src/main/java/CampaignController.java")).
  vm_compute. reflexivity.
Defined.

Lemma existsb_agree (A : Type) (f g : A -> bool) (l : list A) :
  (forall a, In a l -> f a = g a) -> existsb f l = existsb g l.
Proof.
  induction l as [|a l IH]; intros H; cbn [existsb]; [reflexivity|].
  rewrite (H a (or_introl eq_refl)), IH; [reflexivity|].
  intros b Hb. apply H. now right.
Qed.

(** X11: with glob patterns only, [detectApiChanges] never throws: it
    returns the records, in input order, of exactly the files whose name
    has a part that some pattern spells. *)
Theorem detect_glob_patterns :
  forall files apiPatterns,
    Forall globPattern apiPatterns ->
    let keep := fun file =>
      existsb (fun p => globSearch (globItems p) (filename file))
        apiPatterns in
    detectApiChanges files apiPatterns
    = Return (List.map toRecord (filter keep files))
    /\ forall file,
         keep file = true
         <-> exists p, In p apiPatterns
                       /\ spelledIn (globItems p) (filename file).
Proof.
  intros files apiPatterns Hg keep. split.
  - rewrite detect_valid.
    + do 2 f_equal. apply filter_ext_in. intros file _. unfold keep.
      apply existsb_agree. intros p Hp. unfold matchesOr.
      rewrite Forall_forall in Hg.
      now rewrite (matchesPattern_glob _ _ (Hg p Hp)).
    + apply Forall_forall. intros p Hp. apply globPattern_valid.
      rewrite Forall_forall in Hg. now apply Hg.
  - intros file. unfold keep. rewrite existsb_exists.
    split; intros (p & Hp & H); exists p; (split; [exact Hp|]);
      now apply globSearch_spelledIn.
Qed.

Lemma detect_glob_patterns_witness :
  let keep := fun file =>
    existsb (fun p => globSearch (globItems p) (filename file))
      [js "**/api/**"; controllerPattern] in
  detectApiChanges [removalFile; serverFile]
    [js "**/api/**"; controllerPattern]
  = Return (List.map toRecord (filter keep [removalFile; serverFile]))
  /\ forall file,
       keep file = true
       <-> exists p, In p [js "**/api/**"; controllerPattern]
                     /\ spelledIn (globItems p) (filename file).
Proof.
  apply (detect_glob_patterns [removalFile; serverFile]
           [js "**/api/**"; controllerPattern]).
  repeat constructor; vm_compute; reflexivity.
Defined.

Lemma Spells_literal (lit mid : jsstring) :
  Spells (List.map GLit lit) mid <-> mid = lit.
Proof.
  split.
  - revert mid. induction lit as [|c lit IH]; intros mid H; inversion H;
      subst; [reflexivity|]. f_equal. now apply IH.
  - intros ->. induction lit as [|c lit IH]; now constructor.
Qed.

Lemma globItems_plain (lit : jsstring) :
  forallb plainChar lit = true -> globItems lit = List.map GLit lit.
Proof.
  induction lit as [|c lit IH]; cbn [forallb globItems List.map];
    [reflexivity|].
  intros H. apply andb_prop in H as [Hc H].
  apply plainChar_tests in Hc as (_&_&_&H46&H42&_).
  unfold globItem. rewrite H42, H46. f_equal. now apply IH.
Qed.

Lemma plain_globPattern (lit : jsstring) :
  forallb plainChar lit = true -> globPattern lit.
Proof.
  unfold globPattern. rewrite !forallb_forall. intros H c Hc.
  unfold globChar. now rewrite (H c Hc).
Qed.

(** X12: a pattern of plain characters only (no star, no dot, no other
    character with a meaning in a regular expression) matches exactly the
    paths that contain it as a substring, anywhere and across directory
    separators. *)
Theorem plain_pattern_is_substring_test :
  forall lit path,
    forallb plainChar lit = true ->
    (matchesPattern lit path = Return true
     <-> exists pre post, path = pre ++ lit ++ post).
Proof.
  intros lit path Hl.
  pose proof (matchesPattern_glob lit path (plain_globPattern lit Hl)) as E.
  rewrite E, (globItems_plain lit Hl). split.
  - intros H. injection H as H.
    apply globSearch_spelledIn in H as (pre & mid & post & -> & Hs).
    apply Spells_literal in Hs as ->. now exists pre, post.
  - intros (pre & post & ->). f_equal. apply globSearch_spelledIn.
    exists pre, lit, post. split; [reflexivity|]. now apply Spells_literal.
Qed.

Lemma plain_pattern_is_substring_test_witness :
  matchesPattern (js "api") (js "src/apiary/foo.js") = Return true
  <-> exists pre post, js "src/apiary/foo.js" = pre ++ js "api" ++ post.
Proof.
  apply (plain_pattern_is_substring_test (js "api")
           (js "src/apiary/foo.js")).
  vm_compute. reflexivity.
Defined.

Lemma Spells_app (a b : list GlobItem) (m1 m2 : jsstring) :
  Spells a m1 -> Spells b m2 -> Spells (a ++ b) (m1 ++ m2).
Proof.
  intros Ha Hb.
  induction Ha as [|c r s _ IH|ch r s Hc _ IH|run r s Hr _ IH]; cbn [app].
  - exact Hb.
  - now constructor.
  - now constructor.
  - rewrite <- app_assoc. now constructor.
Qed.

Lemma Spells_app_inv (a b : list GlobItem) :
  forall mid,
    Spells (a ++ b) mid ->
    exists m1 m2, mid = m1 ++ m2 /\ Spells a m1 /\ Spells b m2.
Proof.
  induction a as [|item a IH]; intros mid H; cbn [app] in H.
  - exists [], mid. repeat split; [constructor | exact H].
  - inversion H as [|c r s Hs|ch r s Hc Hs|run r s Hr Hs]; subst;
      destruct (IH _ Hs) as (m1 & m2 & -> & H1 & H2).
    + exists (c :: m1), m2. repeat split; [now constructor | exact H2].
    + exists (ch :: m1), m2. repeat split; [now constructor | exact H2].
    + exists (run ++ m1), m2. rewrite app_assoc.
      repeat split; [now constructor | exact H2].
Qed.

Lemma Spells_stars (k : nat) : Spells (repeat GStar k) [].
Proof.
  induction k as [|k IH]; cbn [repeat]; [constructor|].
  exact (SpellsStar [] _ [] (Forall_nil _) IH).
Qed.

Lemma Spells_stars_run (k : nat) (s : jsstring) :
  Spells (repeat GStar k) s ->
  Forall (fun ch => JsString.isLineTerminator ch = false) s.
Proof.
  revert s. induction k as [|k IH]; cbn [repeat]; intros s H;
    inversion H; subst; [constructor|].
  apply Forall_app. split; [assumption | now apply IH].
Qed.

Lemma spelledIn_stars (k k' : nat) (items : list GlobItem) (path : jsstring) :
  spelledIn (repeat GStar k ++ items ++ repeat GStar k') path
  <-> spelledIn items path.
Proof.
  unfold spelledIn. split.
  - intros (pre & mid & post & -> & H).
    apply Spells_app_inv in H as (m1 & m23 & -> & _ & H).
    apply Spells_app_inv in H as (m2 & m3 & -> & H & _).
    exists (pre ++ m1), m2, (m3 ++ post). split; [|exact H].
    now rewrite <- !app_assoc.
  - intros (pre & mid & post & -> & H).
    exists pre, mid, post. split; [reflexivity|].
    replace mid with ([] ++ mid ++ []) by now rewrite app_nil_r.
    apply Spells_app; [apply Spells_stars|].
    apply Spells_app; [exact H | apply Spells_stars].
Qed.

Lemma globItems_stars (k : nat) :
  globItems (repeat 42%N k) = repeat GStar k.
Proof.
  induction k as [|k IH]; cbn [repeat globItems List.map]; [reflexivity|].
  f_equal. exact IH.
Qed.

Lemma globPattern_stars (k : nat) : globPattern (repeat 42%N k).
Proof.
  unfold globPattern. induction k as [|k IH]; [reflexivity|].
  cbn [repeat forallb]. now rewrite IH.
Qed.

Lemma globPattern_app (a b : jsstring) :
  globPattern a -> globPattern b -> globPattern (a ++ b).
Proof.
  unfold globPattern. intros Ha Hb. now rewrite forallb_app, Ha, Hb.
Qed.

(** X13: stars at the start and at the end of a glob pattern change
    nothing: since a match may start and stop anywhere in the path,
    [**/api/**] keeps the same files as [/api/]. *)
Theorem surrounding_stars_are_redundant :
  forall k k' pattern path,
    globPattern pattern ->
    matchesPattern (repeat 42%N k ++ pattern ++ repeat 42%N k') path
    = matchesPattern pattern path.
Proof.
  intros k k' pattern path Hp.
  assert (Hg : globPattern (repeat 42%N k ++ pattern ++ repeat 42%N k'))
    by (repeat apply globPattern_app;
        [apply globPattern_stars | exact Hp | apply globPattern_stars]).
  rewrite (matchesPattern_glob _ _ Hg), (matchesPattern_glob _ _ Hp).
  f_equal. unfold globItems. rewrite !map_app.
  fold (globItems (repeat 42%N k)) (globItems (repeat 42%N k'))
       (globItems pattern).
  rewrite !globItems_stars.
  apply eq_true_iff_eq.
  rewrite !globSearch_spelledIn. apply spelledIn_stars.
Qed.

Lemma surrounding_stars_are_redundant_witness :
  matchesPattern (repeat 42%N 2 ++ js "/api/" ++ repeat 42%N 2)
    (js "src/api/foo.js")
  = matchesPattern (js "/api/") (js "src/api/foo.js").
Proof.
  apply (surrounding_stars_are_redundant 2 2 (js "/api/")
           (js "src/api/foo.js")).
  vm_compute. reflexivity.
Defined.

(** *** Service lookup and resources *)

Lemma sameString_true (a b : jsstring) :
  Service.sameString a b = true <-> a = b.
Proof.
  unfold Service.sameString.
  destruct (list_eq_dec N.eq_dec a b); split; congruence.
Qed.

(** X14: [getServiceConfig] compares names without regard to case and
    returns the first service of [SERVICES] whose name agrees with the
    query; it finds nothing exactly when no name agrees.  A later service
    with the same name up to case is never returned. *)
Theorem getServiceConfig_first_match :
  forall (toLowerCase : jsstring -> jsstring) SERVICES serviceName,
    match Service.getServiceConfig toLowerCase SERVICES serviceName with
    | Some s =>
        exists before after,
          SERVICES = before ++ s :: after
          /\ toLowerCase (Service.name s) = toLowerCase serviceName
          /\ Forall (fun x => toLowerCase (Service.name x)
                              <> toLowerCase serviceName) before
    | None =>
        Forall (fun x => toLowerCase (Service.name x)
                         <> toLowerCase serviceName) SERVICES
    end.
Proof.
  intros lower SERVICES q. unfold Service.getServiceConfig.
  induction SERVICES as [|x tl IH]; cbn [find]; [constructor|].
  destruct (Service.sameString (lower (Service.name x)) (lower q)) eqn:E.
  - apply sameString_true in E. exists [], tl. repeat split; [exact E|].
    constructor.
  - assert (Hx : lower (Service.name x) <> lower q).
    { intros H. apply sameString_true in H. congruence. }
    destruct (find _ tl) as [s|].
    + destruct IH as (before & after & -> & Hs & Hb).
      exists (x :: before), after. repeat split; [exact Hs|].
      now constructor.
    + now constructor.
Qed.

Lemma startsWith_app (a b : jsstring) : Service.startsWith a (a ++ b) = true.
Proof.
  induction a as [|c a IH]; cbn [Service.startsWith app]; [reflexivity|].
  now rewrite N.eqb_refl, IH.
Qed.

Lemma skipn_length_app (a b : jsstring) : skipn (List.length a) (a ++ b) = b.
Proof.
  induction a as [|c a IH]; cbn [List.length skipn app];
    [reflexivity | exact IH].
Qed.

Lemma replaceFirst_prefix (needle s : jsstring) :
  Service.replaceFirst needle [] (needle ++ s) = s.
Proof.
  assert (H : forall t,
             Service.startsWith needle t = true ->
             Service.replaceFirst needle [] t
             = skipn (List.length needle) t).
  { intros [|c tl] Ht; cbn [Service.replaceFirst]; now rewrite Ht. }
  rewrite H; [apply skipn_length_app | apply startsWith_app].
Qed.

Lemma NoDup_map_injective (A B : Type) (f : A -> B) (l : list A) :
  NoDup (List.map f l) ->
  forall a b, In a l -> In b l -> f a = f b -> a = b.
Proof.
  induction l as [|x l IH]; cbn [List.map]; intros Hn a b Ha Hb E;
    [destruct Ha|].
  inversion Hn as [|y l' Hx Hl]; subst.
  destruct Ha as [->|Ha], Hb as [->|Hb].
  - reflexivity.
  - exfalso. apply Hx. rewrite E. now apply in_map.
  - exfalso. apply Hx. rewrite <- E. now apply in_map.
  - now apply IH.
Qed.

(** X15: the resources listed can be read back.  For every configured
    service, reading the [uri] listed for it looks up the name of that
    service and finds a configured service whose name agrees with it up to
    case; when no two configured names agree up to case, it finds the
    service itself. *)
Theorem listed_resource_reads_back :
  forall (toLowerCase : jsstring -> jsstring) SERVICES service,
    In service SERVICES ->
    In (Service.resourceUri service) (Service.listResources SERVICES)
    /\ exists found,
         Service.readResource toLowerCase SERVICES
           (Service.resourceUri service)
         = (Service.name service, Some found)
         /\ In found SERVICES
         /\ toLowerCase (Service.name found)
            = toLowerCase (Service.name service)
         /\ (NoDup (List.map (fun x => toLowerCase (Service.name x))
                      SERVICES) ->
             found = service).
Proof.
  intros lower SERVICES service Hin.
  split; [now apply in_map|].
  unfold Service.readResource, Service.resourceUri.
  rewrite replaceFirst_prefix. unfold Service.getServiceConfig.
  destruct (find _ SERVICES) as [found|] eqn:E.
  - apply find_some in E as [Hf E]. apply sameString_true in E.
    exists found. repeat split; [exact Hf | exact E|].
    intros Hn.
    now apply (NoDup_map_injective _ _ _ _ Hn found service Hf Hin).
  - exfalso. apply (find_none _ _ E) in Hin.
    assert (H : Service.sameString (lower (Service.name service))
                  (lower (Service.name service)) = true)
      by now apply sameString_true.
    congruence.
Qed.

Lemma listed_resource_reads_back_witness :
  In (Service.resourceUri creditService)
    (Service.listResources [campaignService; creditService])
  /\ exists found,
       Service.readResource asciiLower [campaignService; creditService]
         (Service.resourceUri creditService)
       = (Service.name creditService, Some found)
       /\ In found [campaignService; creditService]
       /\ asciiLower (Service.name found)
          = asciiLower (Service.name creditService)
       /\ (NoDup (List.map (fun x => asciiLower (Service.name x))
                    [campaignService; creditService]) ->
           found = creditService).
Proof.
  apply (listed_resource_reads_back asciiLower
           [campaignService; creditService] creditService).
  simpl. right. left. reflexivity.
Defined.

(** *** Branch comparison *)

Lemma someApiPattern_somePattern (apiPatterns : list jsstring)
    (name : jsstring) :
  someApiPattern apiPatterns name = somePattern apiPatterns name.
Proof.
  induction apiPatterns as [|p tl IH]; cbn [someApiPattern somePattern];
    [reflexivity|].
  unfold matchesPattern.
  destruct (regExpCreate (JsString.replaceStar p)) as [R| |]; cbn [bind];
    try reflexivity.
  now destruct (test R name).
Qed.

Lemma filterApiFiles_filterFiles (apiPatterns : list jsstring)
    (files : list ChangedFile) :
  filterApiFiles apiPatterns files = filterFiles apiPatterns files.
Proof.
  induction files as [|f tl IH]; cbn [filterApiFiles filterFiles];
    [reflexivity|].
  now rewrite someApiPattern_somePattern, IH.
Qed.

(** X16: [get_api_changes] and [compare_branches] agree on the API files of
    a comparison.  When [detectApiChanges] returns for the files of the
    comparison, the filter of [compare_branches] returns too, its files
    carry the names and the statuses of the records, in the same order, and
    the count [apiFilesChanged] is the number of records and at most
    [totalFilesChanged]; when one throws, so does the other. *)
Theorem compare_branches_agrees_with_detect :
  forall files apiPatterns,
    (forall records,
       detectApiChanges (filesOrEmpty files) apiPatterns = Return records ->
       exists apiFiles,
         compareBranchesApiFiles files apiPatterns = Return apiFiles
         /\ List.map recFilename records
            = List.map filename (filesOrEmpty apiFiles)
         /\ List.map recStatus records
            = List.map status (filesOrEmpty apiFiles)
         /\ lengthOrZero apiFiles = List.length records
         /\ lengthOrZero apiFiles <= lengthOrZero files)
    /\ (detectApiChanges (filesOrEmpty files) apiPatterns = SyntaxError
        <-> compareBranchesApiFiles files apiPatterns = SyntaxError).
Proof.
  intros [fs|] apiPatterns; cbn [filesOrEmpty compareBranchesApiFiles].
  - rewrite filterApiFiles_filterFiles. unfold detectApiChanges. split.
    + intros records H.
      destruct (filterFiles apiPatterns fs) as [kept| |] eqn:E;
        cbn [bind] in *; try discriminate.
      injection H as <-. exists (Some kept). cbn [filesOrEmpty lengthOrZero].
      rewrite !map_map, length_map. repeat split.
      destruct (filterFiles_keeps _ _ _ E) as [-> _].
      apply filter_length_le.
    + destruct (filterFiles apiPatterns fs); cbn [bind];
        split; congruence.
  - split.
    + intros records H. injection H as <-. exists None.
      repeat split. cbn. lia.
    + split; discriminate.
Qed.

Lemma compare_branches_agrees_with_detect_witness :
  exists apiFiles,
    compareBranchesApiFiles (Some [removalFile; serverFile])
      [js "**/users*"] = Return apiFiles
    /\ List.map recFilename [removalRecord]
       = List.map filename (filesOrEmpty apiFiles)
    /\ List.map recStatus [removalRecord]
       = List.map status (filesOrEmpty apiFiles)
    /\ lengthOrZero apiFiles = List.length [removalRecord]
    /\ lengthOrZero apiFiles <= lengthOrZero (Some [removalFile; serverFile]).
Proof.
  apply (proj1 (compare_branches_agrees_with_detect
                  (Some [removalFile; serverFile]) [js "**/users*"])).
  vm_compute. reflexivity.
Defined.

Lemma splitLines_first (s : jsstring) :
  forall h t,
    JsString.splitLines s = h :: t ->
    ~ In 10%N h /\ (s = h \/ exists rest, s = h ++ 10%N :: rest).
Proof.
  induction s as [|c s IH]; cbn [JsString.splitLines]; intros h t H.
  - injection H as <- <-. split; [intros [] | now left].
  - destruct (c =? 10)%N eqn:E.
    + apply N.eqb_eq in E. subst c. injection H as <- <-.
      split; [intros [] | right; now exists s].
    + apply N.eqb_neq in E.
      destruct (JsString.splitLines s) as [|h' t'] eqn:Es.
      * destruct (splitLines_cons s) as (a & b & Hs). congruence.
      * injection H as <- <-. destruct (IH h' t' eq_refl) as [Hn Hs].
        split.
        -- intros [H|H]; [congruence | now apply Hn].
        -- destruct Hs as [->|(rest & ->)]; [now left|].
           right. now exists rest.
Qed.

(** X17: in the answer of [compare_branches], the short form of a commit's
    hash is its first seven code units (the whole hash when it is shorter),
    and the message shown is the first line of the commit message: it has
    no line feed, and the message is that line alone or that line, a line
    feed and the rest. *)
Theorem commit_summary :
  forall c,
    (exists rest, Service.sha c = Service.shortSha c ++ rest)
    /\ List.length (Service.shortSha c)
       = Nat.min 7 (List.length (Service.sha c))
    /\ ~ In 10%N (Service.firstLine c)
    /\ (Service.message c = Service.firstLine c
        \/ exists rest,
             Service.message c = Service.firstLine c ++ 10%N :: rest).
Proof.
  intros c. unfold Service.shortSha, Service.firstLine, JsString.substring.
  cbn [skipn Nat.sub]. split; [|split].
  - exists (skipn 7 (Service.sha c)). now rewrite firstn_skipn.
  - apply length_firstn.
  - destruct (splitLines_cons (Service.message c)) as (h & t & E).
    rewrite E. exact (splitLines_first _ _ _ E).
Qed.

(** *** Patterns that the RegExp constructor rejects *)

Lemma bind_assoc_filter (x y : Completion (list ChangedFile)) (keep : bool)
    (file : ChangedFile) :
  (' a <- (' rest <- x ;; Return (if keep then file :: rest else rest)) ;;
   ' b <- y ;; Return (a ++ b))
  = (' rest <- (' a <- x ;; ' b <- y ;; Return (a ++ b)) ;;
     Return (if keep then file :: rest else rest)).
Proof.
  destruct x as [a| |]; cbn [bind]; try reflexivity.
  destruct y as [b| |]; cbn [bind]; try reflexivity.
  now destruct keep.
Qed.

Lemma filterFiles_app (apiPatterns : list jsstring)
    (pre post : list ChangedFile) :
  filterFiles apiPatterns (pre ++ post)
  = ' a <- filterFiles apiPatterns pre ;;
    ' b <- filterFiles apiPatterns post ;;
    Return (a ++ b).
Proof.
  induction pre as [|file tl IH]; cbn [app filterFiles].
  - cbn [bind]. now destruct (filterFiles apiPatterns post).
  - destruct (somePattern apiPatterns (filename file)) as [keep| |];
      cbn [bind]; try reflexivity.
    now rewrite IH, bind_assoc_filter.
Qed.

(** C3, amended: a pattern whose translation the RegExp constructor
    rejects is not treated as never matching.  Any pattern that begins with
    [+] or [?] (nothing to repeat) or with a closing parenthesis (unmatched)
    is such a pattern, whatever follows.  The evaluation of a
    rejected pattern throws a SyntaxError on every path, and
    [detectApiChanges] throws as soon as the pattern is reached: for every
    file list [pre ++ file :: post] such that the files of [pre] are
    filtered without a throw and the patterns before the rejected one do
    not match [file]; it throws as well when the filter of [pre] has
    thrown. *)
Theorem C3_invalid_pattern_throws :
  (forall (c : N) (rest : jsstring),
     c = 43%N \/ c = 63%N \/ c = 41%N ->
     parse (JsString.replaceStar (c :: rest)) = SyntaxError
     /\ forall name, matchesPattern (c :: rest) name = SyntaxError)
  /\ forall pattern : jsstring,
       parse (JsString.replaceStar pattern) = SyntaxError ->
       (forall name, matchesPattern pattern name = SyntaxError)
       /\ (forall pre file post (before after : list jsstring)
                 recordsBefore,
             detectApiChanges pre (before ++ pattern :: after)
             = Return recordsBefore ->
             Forall (fun p => matchesPattern p (filename file) = Return false)
               before ->
             detectApiChanges (pre ++ file :: post)
               (before ++ pattern :: after)
             = SyntaxError)
       /\ (forall pre post apiPatterns,
             detectApiChanges pre apiPatterns = SyntaxError ->
             detectApiChanges (pre ++ post) apiPatterns = SyntaxError).
Proof.
  split.
  - intros c rest [-> | [-> | ->]]; split; reflexivity.
  - intros pattern Hp.
    assert (Ht : forall name, matchesPattern pattern name = SyntaxError)
      by (intros name; now apply matchesPattern_throws).
    split; [exact Ht|]. split.
    + intros pre file post before after recordsBefore Hpre Hb.
      destruct (detect_records _ _ _ Hpre) as (kept & Hk & _).
      unfold detectApiChanges. rewrite filterFiles_app, Hk.
      cbn [bind filterFiles].
      now rewrite (somePattern_throws before after pattern _ Hb (Ht _)).
    + intros pre post apiPatterns H. unfold detectApiChanges in *.
      rewrite filterFiles_app.
      destruct (filterFiles apiPatterns pre); cbn [bind] in *;
        [discriminate | reflexivity | discriminate].
Qed.

Lemma C3_invalid_pattern_throws_witness :
  parse (JsString.replaceStar serverPattern) = SyntaxError
  /\ matchesPattern serverPattern (filename libFile) = SyntaxError
  /\ detectApiChanges ([apiFile] ++ libFile :: [])
       ([js "**/api/**"] ++ serverPattern :: [])
     = SyntaxError.
Proof.
  destruct C3_invalid_pattern_throws as [Hplus Hthrow].
  assert (Hp : parse (JsString.replaceStar serverPattern) = SyntaxError).
  { apply (Hplus 43%N (js "server.ts")). left. reflexivity. }
  destruct (Hthrow serverPattern Hp) as (Hname & Hdetect & _).
  split; [exact Hp|]. split; [apply Hname|].
  apply (Hdetect [apiFile] libFile [] [js "**/api/**"] []
           [toRecord apiFile]).
  - vm_compute. reflexivity.
  - constructor; [vm_compute; reflexivity | constructor].
Defined.

(** *** Inclusion by path alone, for every call that returns *)

Lemma filterFiles_returns (apiPatterns : list jsstring)
    (files : list ChangedFile) :
  Forall (fun f => exists b,
            somePattern apiPatterns (filename f) = Return b) files ->
  filterFiles apiPatterns files = Return (filter (keeps apiPatterns) files).
Proof.
  induction 1 as [|file tl [b Hb] _ IH]; cbn [filterFiles filter];
    [reflexivity|].
  unfold keeps at 1. now rewrite Hb, IH.
Qed.

Lemma detect_app_returns (apiPatterns : list jsstring)
    (pre post : list ChangedFile) (records : list ChangeRecord) :
  detectApiChanges (pre ++ post) apiPatterns = Return records ->
  detectApiChanges pre apiPatterns
  = Return (List.map toRecord (filter (keeps apiPatterns) pre))
  /\ detectApiChanges post apiPatterns
     = Return (List.map toRecord (filter (keeps apiPatterns) post))
  /\ records
     = List.map toRecord (filter (keeps apiPatterns) pre)
       ++ List.map toRecord (filter (keeps apiPatterns) post).
Proof.
  intros H.
  destruct (detect_records _ _ _ H) as (kept & Hk & _ & ->).
  destruct (filterFiles_keeps _ _ _ Hk) as [-> Hall].
  apply Forall_app in Hall as [Hpre Hpost].
  unfold detectApiChanges.
  rewrite (filterFiles_returns _ _ Hpre), (filterFiles_returns _ _ Hpost).
  cbn [bind]. now rewrite filter_app, map_app.
Qed.

(** C5, amended: for every input list containing a file whose path matches
    at least one pattern and whose patch is absent, every call of
    [detectApiChanges] that returns yields exactly one record for that
    file, at its place between the records of the files before it and
    after it, with [isApiFile = true] and an empty [changes].  (The call
    does not return when an invalid pattern is evaluated before a matching
    one: it throws.) *)
Theorem C5_file_without_patch_is_included :
  forall apiPatterns before file after records,
    patch file = None ->
    (exists p, In p apiPatterns
               /\ matchesPattern p (filename file) = Return true) ->
    detectApiChanges (before ++ file :: after) apiPatterns = Return records ->
    exists recordsBefore recordsAfter,
      detectApiChanges before apiPatterns = Return recordsBefore
      /\ detectApiChanges after apiPatterns = Return recordsAfter
      /\ records
         = recordsBefore
           ++ mkRecord (filename file) (status file) [] true
           :: recordsAfter.
Proof.
  intros apiPatterns before file after records Hp Hm H.
  destruct (detect_filter_keeps _ _ _ H) as [_ Hk].
  assert (Hkeep : keeps apiPatterns file = true).
  { apply Hk; [|exact Hm]. apply in_or_app. right. now left. }
  destruct (detect_app_returns _ _ _ _ H) as (Hb & Hrest & ->).
  change (file :: after) with ([file] ++ after) in Hrest.
  destruct (detect_app_returns _ _ _ _ Hrest) as (_ & Ha & _).
  eexists; eexists. split; [exact Hb|]. split; [exact Ha|].
  f_equal. cbn [filter]. rewrite Hkeep. cbn [List.map]. f_equal.
  unfold toRecord. now rewrite Hp.
Qed.

Lemma C5_file_without_patch_is_included_witness :
  exists recordsBefore recordsAfter,
    detectApiChanges [removalFile] [js "**/api/**"; serverPattern]
    = Return recordsBefore
    /\ detectApiChanges [] [js "**/api/**"; serverPattern]
       = Return recordsAfter
    /\ [removalRecord; toRecord serverFile]
       = recordsBefore
         ++ mkRecord (filename serverFile) (status serverFile) [] true
         :: recordsAfter.
Proof.
  apply (C5_file_without_patch_is_included [js "**/api/**"; serverPattern]
           [removalFile] serverFile []).
  - reflexivity.
  - exists (js "**/api/**"). split; [simpl; left; reflexivity|].
    vm_compute. reflexivity.
  - vm_compute. reflexivity.
Defined.

(** *** Scenario B, for every call that returns *)

Lemma somePattern_reaches (before after : list jsstring)
    (p name : jsstring) :
  Forall (fun q => exists b, matchesPattern q name = Return b) before ->
  matchesPattern p name = Return true ->
  somePattern (before ++ p :: after) name = Return true.
Proof.
  intros Hb Hp. induction Hb as [|q tl [b Hq] _ IH]; cbn [somePattern app].
  - now rewrite Hp.
  - rewrite Hq. cbn [bind]. now destruct b.
Qed.

Lemma controllerFile_record (status text : jsstring) :
  In addedAnnotation (JsString.splitLines text) ->
  recFilename (toRecord (controllerFile status text))
  = js "src/main/java/CampaignController.java"
  /\ isApiFile (toRecord (controllerFile status text)) = true
  /\ In (JsString.trim addedAnnotation)
       (changes (toRecord (controllerFile status text))).
Proof.
  intros Hline. split; [reflexivity|]. split; [reflexivity|].
  assert (Ht : truthy (patch (controllerFile status text)) = Some text).
  { cbn [patch controllerFile]. destruct text as [|c tl]; [|reflexivity].
    exfalso. apply (splitLines_nonempty_line [] addedAnnotation Hline);
      [discriminate | reflexivity]. }
  rewrite (changes_toRecord _ text Ht), flat_map_lineEntries.
  apply in_map. apply filter_In. split; [exact Hline|].
  vm_compute. reflexivity.
Qed.

(** C9, amended: for a file whose name is a path with a directory part,
    [src/main/java/CampaignController.java], whose patch contains the added
    line [+    @PostMapping("/campaigns")], and with [apiPatterns]
    including [**/*Controller*], every call of [detectApiChanges] that
    returns yields one record, with [isApiFile = true] and a [changes]
    list that contains the line as [trim] leaves it (the leading [+] and
    the spaces after it stay).  The call does return whenever the patterns
    placed before [**/*Controller*] evaluate to a boolean, whatever follows
    it. *)
Theorem C9_added_annotation_is_reported :
  forall status text apiPatterns,
    In addedAnnotation (JsString.splitLines text) ->
    In controllerPattern apiPatterns ->
    (forall records,
       detectApiChanges [controllerFile status text] apiPatterns
       = Return records ->
       exists rec,
         records = [rec]
         /\ recFilename rec = js "src/main/java/CampaignController.java"
         /\ isApiFile rec = true
         /\ In (JsString.trim addedAnnotation) (changes rec))
    /\ (forall before after,
          apiPatterns = before ++ controllerPattern :: after ->
          Forall (fun q => exists b,
                    matchesPattern q
                      (js "src/main/java/CampaignController.java")
                    = Return b) before ->
          detectApiChanges [controllerFile status text] apiPatterns
          = Return [toRecord (controllerFile status text)])
    /\ JsString.trim addedAnnotation
       = js "+    @PostMapping(" ++ dq ++ js "/campaigns" ++ dq ++ js ")".
Proof.
  intros status text apiPatterns Hline Hpat.
  assert (Hm : matchesPattern controllerPattern
                 (js "src/main/java/CampaignController.java") = Return true)
    by (vm_compute; reflexivity).
  split; [|split; [|exact addedAnnotation_trim]].
  - intros records H.
    destruct (detect_filter_keeps _ _ _ H) as [-> Hk].
    assert (Hkeep : keeps apiPatterns (controllerFile status text) = true).
    { apply Hk; [left; reflexivity|]. exists controllerPattern.
      split; [exact Hpat | exact Hm]. }
    cbn [filter]. rewrite Hkeep. cbn [List.map].
    eexists. split; [reflexivity|]. apply controllerFile_record.
    exact Hline.
  - intros before after -> Hb. unfold detectApiChanges.
    cbn [filterFiles filename controllerFile].
    rewrite (somePattern_reaches before after controllerPattern _ Hb Hm).
    reflexivity.
Qed.

Lemma C9_added_annotation_is_reported_witness :
  (forall records,
     detectApiChanges
       [controllerFile (js "modified")
          (js "@@ -1,2 +1,3 @@" ++ nl ++ addedAnnotation)]
       [controllerPattern; serverPattern]
     = Return records ->
     exists rec,
       records = [rec]
       /\ recFilename rec = js "src/main/java/CampaignController.java"
       /\ isApiFile rec = true
       /\ In (JsString.trim addedAnnotation) (changes rec))
  /\ detectApiChanges
       [controllerFile (js "modified")
          (js "@@ -1,2 +1,3 @@" ++ nl ++ addedAnnotation)]
       [controllerPattern; serverPattern]
     = Return [toRecord (controllerFile (js "modified")
                 (js "@@ -1,2 +1,3 @@" ++ nl ++ addedAnnotation))].
Proof.
  destruct (C9_added_annotation_is_reported (js "modified")
              (js "@@ -1,2 +1,3 @@" ++ nl ++ addedAnnotation)
              [controllerPattern; serverPattern]) as (H1 & H2 & _).
  - vm_compute. right. left. reflexivity.
  - simpl. left. reflexivity.
  - split; [exact H1|].
    apply (H2 [] [serverPattern]); [reflexivity | constructor].
Defined.

(** *** The characters of a pattern other than the star *)

Lemma replaceStar_no_star (pattern : jsstring) :
  ~ In 42%N pattern -> JsString.replaceStar pattern = pattern.
Proof.
  induction pattern as [|c tl IH]; intros H; [reflexivity|].
  cbn [JsString.replaceStar flat_map].
  destruct (c =? 42)%N eqn:E.
  - apply N.eqb_eq in E. exfalso. apply H. now left.
  - cbn [app]. f_equal. apply IH. intros Hin. apply H. now right.
Qed.

Lemma dot_matches_one (c : N) :
  matchesPattern (js ".") [c]
  = Return (negb (JsString.isLineTerminator c)).
Proof.
  unfold matchesPattern.
  change (regExpCreate (JsString.replaceStar (js ".")))
    with (Return (mkRegExp (js ".") (Seq Dot Empty) false false 0)).
  cbn [bind]. f_equal. unfold test, regExpBuiltinExec.
  cbn -[JsString.isLineTerminator].
  destruct (JsString.isLineTerminator c); reflexivity.
Qed.

(** C10, as stated, fails in one point: the dot does not match any single
    character.  It does not match a line feed, so [**/*.java] does not
    match the path of the claim with a line feed in the place of the X. *)
Lemma C10_counterexample :
  matchesPattern (js ".") [10%N] = Return false
  /\ matchesPattern (js "**/*.java")
       (js "src/routes/" ++ [10%N] ++ js "java")
     = Return false.
Proof. split; vm_compute; reflexivity. Qed.

(** C10, amended: in a path pattern every character other than the star is
    read with its meaning in a regular expression, not literally: a pattern
    without a star is handed to the RegExp constructor as it stands, and
    in any pattern such a character is copied unchanged into the source of
    the regular expression.  So
    [+] and [?] are quantifiers, parentheses group, brackets make a class,
    the bar separates alternatives, [^] and [$] anchor, the backslash
    escapes, and each of these patterns rejects the path that spells it
    literally.  In particular the dot matches any single character that is
    not a line terminator (line feed, carriage return, U+2028, U+2029), so
    [**/*.java] matches [src/routes/Xjava], a path without a dot. *)
Theorem C10_metacharacters_keep_their_meaning :
  (forall (pre post : jsstring) (c : N),
     c <> 42%N ->
     JsString.replaceStar (pre ++ c :: post)
     = JsString.replaceStar pre ++ c :: JsString.replaceStar post)
  /\ (forall pattern name : jsstring,
        ~ In 42%N pattern ->
        matchesPattern pattern name
        = ' R <- regExpCreate pattern ;; Return (test R name))
  /\ (forall c, matchesPattern (js ".") [c]
                = Return (negb (JsString.isLineTerminator c)))
  /\ List.map (matchesPattern (js "a+b")) [js "aab"; js "a+b"]
     = [Return true; Return false]
  /\ List.map (matchesPattern (js "colou?r")) [js "color"; js "colou?r"]
     = [Return true; Return false]
  /\ List.map (matchesPattern (js "(ab)c")) [js "abc"; js "(ab)c"]
     = [Return true; Return false]
  /\ List.map (matchesPattern (js "[ab]c")) [js "bc"; js "[ab]c"]
     = [Return true; Return false]
  /\ List.map (matchesPattern (js "a|b")) [js "b"; js "|"]
     = [Return true; Return false]
  /\ List.map (matchesPattern (js "^src")) [js "src/x"; js "lib/src"; js "^src"]
     = [Return true; Return false; Return false]
  /\ List.map (matchesPattern (js "js$")) [js "a.js"; js "a.json"; js "js$"]
     = [Return true; Return false; Return false]
  /\ List.map (matchesPattern (js "v\d")) [js "v7"; js "v\d"]
     = [Return true; Return false]
  /\ List.map (matchesPattern (js "a\.b")) [js "a.b"; js "axb"]
     = [Return true; Return false]
  /\ List.map (matchesPattern (js "a.b")) [js "a.b"; js "axb"]
     = [Return true; Return true]
  /\ matchesPattern (js "**/*.java") (js "src/routes/Xjava") = Return true
  /\ ~ In 46%N (js "src/routes/Xjava").
Proof.
  split.
  { intros pre post c Hc. unfold JsString.replaceStar.
    rewrite flat_map_app. cbn [flat_map].
    apply N.eqb_neq in Hc. now rewrite Hc. }
  split.
  { intros pattern name H. unfold matchesPattern.
    now rewrite (replaceStar_no_star pattern H). }
  split; [exact dot_matches_one|].
  repeat (split; [vm_compute; reflexivity|]).
  vm_compute. intuition discriminate.
Qed.

(** *** The descriptors and their verb *)

Lemma endpointOf_methodOf (sig : Signature) (line : jsstring) (index : nat)
    (m : ExecResult) :
  method (endpointOf sig line index m)
  = methodOf (groupText m (methodIndex sig)).
Proof.
  unfold endpointOf, methodOf. cbn [method].
  destruct (groupText m (methodIndex sig)) as [[|c verb]|]; reflexivity.
Qed.

(** X8: every descriptor comes from a match [m] of a signature on a line of
    the content, and its method is the text of the verb group of [m] in
    upper case, or UNKNOWN when that group is missing or empty; hence the
    method is never empty and is unchanged by upper-casing.  Its handler
    neither starts nor ends with white space. *)
Theorem extract_descriptor_fields :
  forall content filename e,
    In e (extractApiEndpoints content filename) ->
    (exists line sig m,
       In line (JsString.splitLines content)
       /\ In sig patterns
       /\ In m (matchAll (regex sig) line)
       /\ method e
          = match groupText m (methodIndex sig) with
            | Some [] => js "UNKNOWN"
            | Some verb => JsString.toUpperCase verb
            | None => js "UNKNOWN"
            end)
    /\ method e <> []
    /\ JsString.toUpperCase (method e) = method e
    /\ trimmed (handler e).
Proof.
  intros content filename e H. rewrite extract_endpointsFrom in H.
  apply endpointsFrom_origin in H as (k & line & Hk & H).
  pose proof (lineEndpoints_origin _ _ _ H) as [Hh _].
  unfold lineEndpoints in H. rewrite scanSignatures_app in H.
  cbn [app] in H. apply in_flat_map in H as (sig & Hsig & H).
  apply in_map_iff in H as (m & <- & Hm).
  destruct (endpointOf_method sig line (0 + k) m) as [H1 H2].
  split; [|split; [exact H1|split; [exact H2|]]].
  - exists line, sig, m. split; [now apply nth_error_In with k|].
    split; [exact Hsig|]. split; [exact Hm|].
    rewrite endpointOf_methodOf. unfold methodOf.
    now destruct (groupText m (methodIndex sig)) as [[|c verb]|].
  - rewrite Hh. apply trim_trimmed.
Qed.

Lemma extract_descriptor_fields_witness :
  (exists line sig m,
     In line (JsString.splitLines scenarioContent)
     /\ In sig patterns
     /\ In m (matchAll (regex sig) line)
     /\ method scenarioEndpoint
        = match groupText m (methodIndex sig) with
          | Some [] => js "UNKNOWN"
          | Some verb => JsString.toUpperCase verb
          | None => js "UNKNOWN"
          end)
  /\ method scenarioEndpoint <> []
  /\ JsString.toUpperCase (method scenarioEndpoint) = method scenarioEndpoint
  /\ trimmed (handler scenarioEndpoint).
Proof.
  apply (extract_descriptor_fields scenarioContent (js "routes/users.js")
           scenarioEndpoint).
  vm_compute. left. reflexivity.
Defined.

(** The default is reached: a match whose verb group is missing or empty is
    given the method UNKNOWN, whatever the signature and the line. *)
Lemma endpointOf_unknown (sig : Signature) (line : jsstring) (index : nat)
    (m : ExecResult) :
  groupText m (methodIndex sig) = None
  \/ groupText m (methodIndex sig) = Some [] ->
  method (endpointOf sig line index m) = js "UNKNOWN".
Proof.
  intros [H|H]; rewrite endpointOf_methodOf, H; reflexivity.
Qed.

(** *** Two invocations on one heap *)

(** The state of a global object shows in the result of [exec]: the second
    [exec] on the same object and the same text starts where the first
    stopped. *)
Example exec_on_a_global_object_is_stateful :
  let st := [literal (js "get") true true] in
  let '(first, st1) := Heap.execAt 0 (js "get") st in
  let '(second, _) := Heap.execAt 0 (js "get") st1 in
  succeeds first = true /\ succeeds second = false.
Proof. vm_compute. split; reflexivity. Qed.

Section HeapLemmas.

Import Heap.

Lemma deref_app (st ext : Store) (l : Loc) :
  l < List.length st -> deref (st ++ ext) l = deref st l.
Proof. intros H. unfold deref. now apply app_nth1. Qed.

Lemma deref_alloc (st ext : Store) (R : RegExpObject) :
  deref (st ++ R :: ext) (List.length st) = R.
Proof. unfold deref. apply nth_middle. Qed.

Lemma assign_deref (st : Store) :
  forall l, assign st l (deref st l) = st.
Proof.
  induction st as [|x st IH]; intros [|l]; cbn [assign]; try reflexivity.
  unfold deref. cbn [nth]. f_equal. apply IH.
Qed.

Lemma assign_assign (st : Store) (R R' : RegExpObject) :
  forall l, assign (assign st l R) l R' = assign st l R'.
Proof.
  induction st as [|x st IH]; intros [|l]; cbn [assign]; try reflexivity.
  f_equal. apply IH.
Qed.

Lemma assign_length (st : Store) (R : RegExpObject) :
  forall l, List.length (assign st l R) = List.length st.
Proof.
  induction st as [|x st IH]; intros [|l]; cbn [assign List.length];
    try reflexivity.
  f_equal. apply IH.
Qed.

Lemma deref_assign (st : Store) (R : RegExpObject) :
  forall l, l < List.length st -> deref (assign st l R) l = R.
Proof.
  induction st as [|x st IH]; intros [|l] H; cbn [List.length] in H;
    try lia; cbn [assign]; [reflexivity|].
  unfold deref. cbn [nth]. apply IH. lia.
Qed.

Lemma assign_last (st : Store) (R R' : RegExpObject) :
  assign (st ++ [R]) (List.length st) R' = st ++ [R'].
Proof.
  induction st as [|x st IH]; cbn [app List.length assign];
    [reflexivity|].
  f_equal. exact IH.
Qed.

(** The iteration on the heap computes what [matchAllFrom] computes and
    writes the matcher object only. *)
Lemma matchAllAt_matchAllFrom (S : jsstring) (fuel : nat) :
  forall l st,
    l < List.length st ->
    exists R',
      matchAllAt fuel l S st
      = (matchAllFrom fuel (deref st l) S, assign st l R').
Proof.
  induction fuel as [|fuel IH]; intros l st Hl;
    cbn [matchAllAt matchAllFrom].
  - exists (deref st l). now rewrite assign_deref.
  - unfold execAt.
    destruct (regExpBuiltinExec (deref st l) S) as [[m|] R1] eqn:E.
    + rewrite (deref_assign st R1 l Hl), assign_assign.
      set (next := if matchEnd m =? index m
                   then setLastIndex R1 (Datatypes.S (lastIndex R1))
                   else R1).
      assert (Hst : (if matchEnd m =? index m
                     then assign st l
                            (setLastIndex R1 (Datatypes.S (lastIndex R1)))
                     else assign st l R1) = assign st l next)
        by (unfold next; now destruct (matchEnd m =? index m)).
      rewrite Hst.
      assert (Hl' : l < List.length (assign st l next))
        by now rewrite assign_length.
      destruct (IH l (assign st l next) Hl') as [R' HR].
      rewrite HR, (deref_assign st next l Hl), assign_assign.
      now exists R'.
    + now exists R1.
Qed.

(** [matchAll] on the heap computes what [matchAll] computes, reads the
    object it is called on and writes a new one only. *)
Lemma matchAllOn_matchAll (S : jsstring) (st : Store) (R : Loc) :
  R < List.length st ->
  exists R',
    matchAllOn R S st = (matchAll (deref st R) S, st ++ [R']).
Proof.
  intros HR. unfold matchAllOn, alloc.
  set (copy := mkRegExp _ _ _ _ _).
  assert (Hl : List.length st < List.length (st ++ [copy]))
    by (rewrite length_app; cbn; lia).
  destruct (matchAllAt_matchAllFrom S (2 + List.length S) _ _ Hl)
    as [R' H].
  rewrite H, deref_alloc, assign_last. now exists R'.
Qed.

Lemma resolve_app (st ext : Store) (refs : list SignatureRef) :
  Forall (validRef st) refs ->
  List.map (resolve (st ++ ext)) refs = List.map (resolve st) refs.
Proof.
  induction 1 as [|ref tl H _ IH]; cbn [List.map]; [reflexivity|].
  unfold resolve at 1 3. now rewrite (deref_app st ext _ H), IH.
Qed.

Lemma validRef_app (st ext : Store) (refs : list SignatureRef) :
  Forall (validRef st) refs -> Forall (validRef (st ++ ext)) refs.
Proof.
  intros H. apply Forall_forall. intros ref Hin.
  rewrite Forall_forall in H. specialize (H ref Hin).
  unfold validRef in *. rewrite length_app. lia.
Qed.

Lemma scanSignaturesAt_scanSignatures (line : jsstring) (index : nat)
    (refs : list SignatureRef) :
  forall acc st,
    Forall (validRef st) refs ->
    exists ext,
      scanSignaturesAt refs line index acc st
      = (scanSignatures (List.map (resolve st) refs) line index acc,
         st ++ ext).
Proof.
  induction refs as [|ref tl IH]; intros acc st Hv;
    cbn [scanSignaturesAt scanSignatures List.map].
  - exists []. now rewrite app_nil_r.
  - inversion Hv as [|r l Href Htl]; subst.
    destruct (matchAllOn_matchAll line st _ Href) as [R' HR].
    rewrite HR.
    destruct (IH (pushMatches (resolve st ref) line index
                    (matchAll (deref st (regexAt ref)) line) acc)
                 (st ++ [R']) (validRef_app _ _ _ Htl)) as [ext Hext].
    rewrite Hext, (resolve_app _ _ _ Htl), <- app_assoc.
    now exists ([R'] ++ ext).
Qed.

Lemma forEachLineAt_forEachLine (refs : list SignatureRef)
    (lines : list jsstring) :
  forall index acc st,
    Forall (validRef st) refs ->
    List.map (resolve st) refs = patterns ->
    exists ext,
      forEachLineAt refs lines index acc st
      = (forEachLine lines index acc, st ++ ext).
Proof.
  induction lines as [|line tl IH]; intros index acc st Hv Hp;
    cbn [forEachLineAt forEachLine].
  - exists []. now rewrite app_nil_r.
  - destruct (scanSignaturesAt_scanSignatures line index refs acc st Hv)
      as [ext Hext].
    rewrite Hext, Hp.
    destruct (IH (Datatypes.S index)
                 (scanSignatures patterns line index acc) (st ++ ext)
                 (validRef_app _ _ _ Hv)) as [ext' Hext'].
    + now rewrite (resolve_app _ _ _ Hv).
    + rewrite Hext', <- app_assoc. now exists (ext ++ ext').
Qed.

Lemma allocSignatures_fresh (sigs : list Signature) :
  forall st,
    exists refs,
      allocSignatures sigs st = (refs, st ++ List.map regex sigs)
      /\ Forall (validRef (st ++ List.map regex sigs)) refs
      /\ List.map (resolve (st ++ List.map regex sigs)) refs = sigs.
Proof.
  induction sigs as [|sig tl IH]; intros st;
    cbn [allocSignatures List.map].
  - exists []. rewrite app_nil_r. repeat split. constructor.
  - unfold alloc. destruct (IH (st ++ [regex sig])) as (refs & E & Hv & Hr).
    rewrite E. rewrite <- app_assoc in *. cbn [app] in *.
    eexists. split; [reflexivity|]. split.
    + constructor; [|exact Hv].
      unfold validRef. cbn [regexAt]. rewrite length_app.
      cbn [List.length]. lia.
    + cbn [List.map]. rewrite Hr. f_equal.
      unfold resolve. cbn [regexAt methodIndexOf pathIndexOf].
      rewrite deref_alloc. now destruct sig.
Qed.

End HeapLemmas.

(** A call on the heap returns what the function of the text returns, and
    leaves every object that was there before as it was: the store is only
    extended. *)
Lemma heap_extract (content filename : jsstring) (st : Heap.Store) :
  exists ext,
    Heap.extractApiEndpoints content filename st
    = (extractApiEndpoints content filename, st ++ ext).
Proof.
  unfold Heap.extractApiEndpoints, extractApiEndpoints.
  destruct (allocSignatures_fresh patterns st) as (refs & E & Hv & Hr).
  rewrite E.
  destruct (forEachLineAt_forEachLine refs (JsString.splitLines content)
              0 [] _ Hv Hr) as [ext Hext].
  rewrite Hext, <- app_assoc. now eexists.
Qed.

(** C8: two invocations of [extractApiEndpoints] on the same content and
    file name, the second in the heap that the first has left, return the
    same list in the same order, whatever objects the heap held before:
    both return the list that the text determines.  Each call makes its
    signature objects anew and [matchAll] iterates on a copy, so a call
    writes no object that existed before it; the [lastIndex] that the
    copies are left with is never read again. *)
Theorem C8_idempotence :
  forall content filename st,
    let run1 := Heap.extractApiEndpoints content filename st in
    let run2 := Heap.extractApiEndpoints content filename (snd run1) in
    fst run1 = fst run2
    /\ fst run1 = extractApiEndpoints content filename
    /\ (exists ext, snd run1 = st ++ ext)
    /\ (exists ext, snd run2 = snd run1 ++ ext).
Proof.
  intros content filename st run1 run2. subst run1 run2.
  destruct (heap_extract content filename st) as [ext H]. rewrite H.
  cbn [fst snd].
  destruct (heap_extract content filename (st ++ ext)) as [ext' H'].
  rewrite H'. cbn [fst snd]. repeat split; now eexists.
Qed.
